(** * Shader loading in [maincpp.cpp]: source splitting and program build

    A shallow embedding of [ParseShader], [CompileShader] and
    [CreateShader], together with the properties of the splitter and of
    the program builder that the specification states about them. *)

From Stdlib Require Import String Ascii ZArith List Lia.
From stdpp Require Import base option list gmap.
From Equations Require Import Equations.
Import ListNotations.

Local Open Scope string_scope.
Local Open Scope Z_scope.

(** ** Outcomes of executing C++ code

    C++ gives no meaning to an access outside an array, nor to the use of
    a variable that was never written.  The embedding makes both explicit
    outcomes instead of picking a value. *)

Inductive fault : Type :=
| OutOfBounds (index : Z) (size : nat)
| Uninitialised.

Inductive result (A : Type) : Type :=
| Ok (a : A)
| Undefined (f : fault).
Arguments Ok {A} a.
Arguments Undefined {A} f.

Definition bind_result {A B} (r : result A) (k : A -> result B) : result B :=
  match r with
  | Ok a => k a
  | Undefined f => Undefined f
  end.

(** ** [std::string] *)

Module Str.

Definition newline : ascii := "010"%char.

(** [endl] and the literal ["\n"] both put one newline character. *)
Definition nl : string := String newline EmptyString.

(** [std::string::find(needle)]: the position of the first occurrence,
    [None] standing for [npos]. *)
Fixpoint find_from (needle s : string) (pos : nat) : option nat :=
  if String.prefix needle s then Some pos
  else match s with
       | EmptyString => None
       | String _ rest => find_from needle rest (S pos)
       end.

Definition find (s needle : string) : option nat := find_from needle s 0.

(** The test [s.find(needle) != std::string::npos]. *)
Definition found (s needle : string) : bool :=
  match find s needle with
  | Some _ => true
  | None => false
  end.

(** [s.c_str()] read as a NUL-terminated string: the characters before
    the first NUL. *)
Fixpoint c_str (s : string) : string :=
  match s with
  | EmptyString => EmptyString
  | String c rest =>
      if Ascii.eqb c Ascii.zero then EmptyString else String c (c_str rest)
  end.

(** The first [n] characters of [s], what fits a buffer of [n] characters. *)
Fixpoint take (n : nat) (s : string) : string :=
  match n, s with
  | S n', String c rest => String c (take n' rest)
  | _, _ => EmptyString
  end.

(** A text made of lines, each one ended by a newline. *)
Fixpoint unlines (ls : list string) : string :=
  match ls with
  | [] => EmptyString
  | l :: rest => l ++ nl ++ unlines rest
  end.

(** [c] does not occur in [s]. *)
Fixpoint free_of (c : ascii) (s : string) : bool :=
  match s with
  | EmptyString => true
  | String d rest => negb (Ascii.eqb d c) && free_of c rest
  end.

End Str.

(** ** [std::ifstream] and [getline] *)

Module Stream.

(** An input stream: its fail bit and the characters not yet read. *)
Record istream : Type := {
  failbit : bool;
  pending : string
}.

(** [std::ifstream stream(filepath)]: a file that cannot be opened
    leaves the stream failed. *)
Definition open (fs : string -> option string) (filepath : string) : istream :=
  match fs filepath with
  | Some contents => {| failbit := false; pending := contents |}
  | None => {| failbit := true; pending := EmptyString |}
  end.

(** Characters up to the first newline, and what follows that newline. *)
Fixpoint split_line (s : string) : string * string :=
  match s with
  | EmptyString => (EmptyString, EmptyString)
  | String c rest =>
      if Ascii.eqb c Str.newline then (EmptyString, rest)
      else let '(l, r) := split_line rest in (String c l, r)
  end.

(** [getline(stream, line)]: [None] when the call leaves the stream
    failed (already failed, or nothing left to extract), otherwise the
    line read, without its newline, and the stream after it. *)
Definition getline (s : istream) : option (string * istream) :=
  if failbit s then None
  else match pending s with
       | EmptyString => None
       | String _ _ =>
           let '(l, r) := split_line (pending s) in
           Some (l, {| failbit := false; pending := r |})
       end.

End Stream.

(** ** The splitter: [ParseShader] *)

Module Splitter.
Import Stream.

Record ShaderProgramSource : Type := {
  VertexSource : string;
  FragmentSource : string
}.

Inductive ShaderType : Type := NONE | VERTEX | FRAGMENT.

(** The enumerators' values, [(int)type]. *)
Definition int_of_type (t : ShaderType) : Z :=
  match t with
  | NONE => -1
  | VERTEX => 0
  | FRAGMENT => 1
  end.

(** [ss[i] << line << "\n"] on the array [ss]. *)
Definition ss_put (ss : list string) (i : Z) (line : string) : result (list string) :=
  if (0 <=? i) && (i <? Z.of_nat (length ss)) then
    match ss !! Z.to_nat i with
    | Some buf => Ok (<[Z.to_nat i := buf ++ line ++ Str.nl]> ss)
    | None => Undefined (OutOfBounds i (length ss))
    end
  else Undefined (OutOfBounds i (length ss)).

(** The body of the [while] loop, on the loop's variables. *)
Definition body (type : ShaderType) (ss : list string) (line : string)
  : result (ShaderType * list string) :=
  if Str.found line "#shader" then
    if Str.found line "vertex" then Ok (VERTEX, ss)
    else if Str.found line "fragment" then Ok (FRAGMENT, ss)
    else Ok (type, ss)
  else
    bind_result (ss_put ss (int_of_type type) line) (fun ss' => Ok (type, ss')).

(** A value together with the equation that names it, so that the loop
    below keeps the outcome of its [getline] call. *)
Definition inspect {A} (a : A) : {b : A | a = b} := exist _ a eq_refl.

(** [while (getline(stream, line)) { ... }] *)
Equations? while_getline (stream : istream) (type : ShaderType) (ss : list string)
  : result (ShaderType * list string) by wf (String.length (pending stream)) lt :=
  while_getline stream type ss with inspect (getline stream) := {
    | exist _ None _ => Ok (type, ss)
    | exist _ (Some (line, stream')) Hget =>
        match body type ss line with
        | Ok (type', ss') => while_getline stream' type' ss'
        | Undefined f => Undefined f
        end }.
Proof.
  assert (Hsplit : forall txt,
             (String.length (snd (split_line txt)) <= String.length txt)%nat).
  { intros txt. induction txt as [|c rest IH]; simpl; [lia|].
    destruct (Ascii.eqb c Str.newline); simpl; [lia|].
    destruct (split_line rest); simpl in *; lia. }
  unfold getline in Hget. destruct (failbit stream); [discriminate|].
  destruct (pending stream) as [|c rest] eqn:Hpending; [discriminate|].
  assert (Hrest : (String.length (snd (split_line rest)) <= String.length rest)%nat)
    by apply Hsplit.
  simpl in Hget. destruct (Ascii.eqb c Str.newline).
  - inversion Hget; subst; simpl; lia.
  - destruct (split_line rest) as [l0 r0]. inversion Hget; subst; simpl in *; lia.
Qed.

Definition ss_str (ss : list string) (i : nat) : string :=
  default EmptyString (ss !! i).

Definition ParseShader (fs : string -> option string) (filepath : string)
  : result ShaderProgramSource :=
  let stream := Stream.open fs filepath in
  let ss := [EmptyString; EmptyString] in
  let type := NONE in
  bind_result (while_getline stream type ss) (fun '(_, ss) =>
    Ok {| VertexSource := ss_str ss 0; FragmentSource := ss_str ss 1 |}).

(** *** The shape of input files

    A line is a text without newline.  A directive line contains the
    marker; it is a vertex directive when it names the vertex stage,
    and a fragment directive when it names the fragment stage and not
    the vertex stage.  Any other line is a content line. *)

Definition is_line (l : string) : bool := Str.free_of Str.newline l.

Definition directive_line (l : string) : bool :=
  is_line l && Str.found l "#shader".

Definition content_line (l : string) : bool :=
  is_line l && negb (Str.found l "#shader").

Definition vertex_directive (l : string) : bool :=
  directive_line l && Str.found l "vertex".

Definition fragment_directive (l : string) : bool :=
  directive_line l && negb (Str.found l "vertex") && Str.found l "fragment".

(** A file holding the lines [ls]: every line ended by a newline, or
    every line but the last one, which then is not empty. *)
Definition file_of_lines (ls : list string) (txt : string) : Prop :=
  txt = Str.unlines ls \/
  exists init final, ls = (init ++ [final])%list /\ final <> EmptyString /\
                     txt = (Str.unlines init ++ final)%string.

End Splitter.

(** ** The OpenGL objects the builder works on

    The driver is outside the program.  It is modelled by the object
    tables the calls act on, with the GLSL compiler and linker left as
    parameters of the builder. *)

Module GL.

Definition GL_FALSE : Z := 0.
Definition GL_TRUE : Z := 1.
Definition GL_FRAGMENT_SHADER : Z := 0x8B30.
Definition GL_VERTEX_SHADER : Z := 0x8B31.
Definition GL_COMPILE_STATUS : Z := 0x8B81.
Definition GL_INFO_LOG_LENGTH : Z := 0x8B84.

(** A shader object.  [sh_log] is [None] until a compilation writes an
    info log; [sh_flagged] is the delete status of an object whose
    deletion waits for it to be detached. *)
Record shader : Type := {
  sh_type : Z;
  sh_source : string;
  sh_compiled : bool;
  sh_log : option string;
  sh_flagged : bool
}.

Record program : Type := {
  pr_attached : list Z;
  pr_linked : bool;
  pr_validated : bool
}.

(** Shader and program objects, by name.  The two kinds share one name
    space, and the name 0 is never an object. *)
Record context : Type := {
  shaders : gmap Z shader;
  programs : gmap Z program
}.

Definition max_name {A} (m : gmap Z A) : Z :=
  foldr Z.max 0 (map fst (map_to_list m)).

(** The name the next created object gets: above every name in use. *)
Definition fresh (ctx : context) : Z :=
  1 + Z.max (max_name (shaders ctx)) (max_name (programs ctx)).

Definition set_shaders (ctx : context) (m : gmap Z shader) : context :=
  {| shaders := m; programs := programs ctx |}.

Definition set_programs (ctx : context) (m : gmap Z program) : context :=
  {| shaders := shaders ctx; programs := m |}.

(** [glCreateProgram]: the name of the new object, or 0, and no object,
    when the driver cannot create one.  Names are [GLuint] values: the
    driver of this model fails once no name below [2^32] is left. *)
Definition create_program (ctx : context) : Z * context :=
  let name := fresh ctx in
  if name <? 2^32 then
    (name, set_programs ctx
             (<[name := {| pr_attached := []; pr_linked := false;
                           pr_validated := false |}]> (programs ctx)))
  else (0, ctx).

(** [glCreateShader]: a new shader object of the given type, without
    source, under the name the driver hands out. *)
Definition create_shader (ctx : context) (type : Z) : Z * context :=
  let name := fresh ctx in
  (name, set_shaders ctx
           (<[name := {| sh_type := type; sh_source := EmptyString;
                         sh_compiled := false; sh_log := None;
                         sh_flagged := false |}]> (shaders ctx))).

Definition shader_source (ctx : context) (name : Z) (src : string) : context :=
  set_shaders ctx
    (alter (fun s => {| sh_type := sh_type s; sh_source := src;
                        sh_compiled := sh_compiled s; sh_log := sh_log s;
                        sh_flagged := sh_flagged s |}) name (shaders ctx)).

(** Compilation stores the compile status and replaces the info log. *)
Definition compile_shader (glsl_compile : Z -> string -> bool * string)
    (ctx : context) (name : Z) : context :=
  set_shaders ctx
    (alter (fun s =>
              let '(ok, log) := glsl_compile (sh_type s) (sh_source s) in
              {| sh_type := sh_type s; sh_source := sh_source s;
                 sh_compiled := ok; sh_log := Some log;
                 sh_flagged := sh_flagged s |}) name (shaders ctx)).

(** The answer to [GL_INFO_LOG_LENGTH]: the number of characters of the
    info log with its terminating NUL, and 0 when the object has no info
    log, which is the case of an empty log too. *)
Definition info_log_length (log : option string) : Z :=
  match log with
  | None | Some EmptyString => 0
  | Some log => Z.of_nat (String.length log) + 1
  end.

(** [glGetShaderiv]: the value stored through [params], [None] when the
    call stores nothing. *)
Definition get_shaderiv (ctx : context) (name pname : Z) : option Z :=
  match shaders ctx !! name with
  | None => None
  | Some s =>
      if pname =? GL_COMPILE_STATUS then
        Some (if sh_compiled s then GL_TRUE else GL_FALSE)
      else if pname =? GL_INFO_LOG_LENGTH then
        Some (info_log_length (sh_log s))
      else None
  end.

(** [glGetShaderInfoLog]: the text stored in a buffer of [bufSize]
    characters, terminator included; [None] when nothing is stored. *)
Definition get_shader_info_log (ctx : context) (name bufSize : Z) : option string :=
  match shaders ctx !! name with
  | None => None
  | Some s =>
      if bufSize <=? 0 then None
      else Some (Str.take (Z.to_nat (bufSize - 1)) (default EmptyString (sh_log s)))
  end.

Definition is_attached (ctx : context) (name : Z) : bool :=
  existsb (fun '(_, p) => bool_decide (name ∈ pr_attached p))
          (map_to_list (programs ctx)).

(** [glDeleteShader]: the name 0 is ignored; an attached shader is only
    flagged for deletion; any other shader is deleted. *)
Definition delete_shader (ctx : context) (name : Z) : context :=
  if name =? 0 then ctx
  else if is_attached ctx name then
    set_shaders ctx
      (alter (fun s => {| sh_type := sh_type s; sh_source := sh_source s;
                          sh_compiled := sh_compiled s; sh_log := sh_log s;
                          sh_flagged := true |}) name (shaders ctx))
  else set_shaders ctx (delete name (shaders ctx)).

(** [glAttachShader]: an error, without effect, unless both names are
    objects of the right kind and the shader is not attached yet. *)
Definition attach_shader (ctx : context) (prog name : Z) : context :=
  match programs ctx !! prog, shaders ctx !! name with
  | Some p, Some _ =>
      if bool_decide (name ∈ pr_attached p) then ctx
      else set_programs ctx
             (<[prog := {| pr_attached := pr_attached p ++ [name];
                           pr_linked := pr_linked p;
                           pr_validated := pr_validated p |}]> (programs ctx))
  | _, _ => ctx
  end.

Definition attached_stages (ctx : context) (p : program) : list shader :=
  omap (fun name => shaders ctx !! name) (pr_attached p).

(** Linking succeeds when every attached shader is compiled and the
    linker accepts the stages. *)
Definition link_status (glsl_link : list (Z * string) -> bool)
    (ctx : context) (p : program) : bool :=
  let stages := attached_stages ctx p in
  forallb sh_compiled stages
  && glsl_link (map (fun s => (sh_type s, sh_source s)) stages).

Definition link_program (glsl_link : list (Z * string) -> bool)
    (ctx : context) (prog : Z) : context :=
  match programs ctx !! prog with
  | Some p =>
      set_programs ctx
        (<[prog := {| pr_attached := pr_attached p;
                      pr_linked := link_status glsl_link ctx p;
                      pr_validated := pr_validated p |}]> (programs ctx))
  | None => ctx
  end.

(** Validation of a program that is not linked fails. *)
Definition validate_program (ctx : context) (prog : Z) : context :=
  set_programs ctx
    (alter (fun p => {| pr_attached := pr_attached p;
                        pr_linked := pr_linked p;
                        pr_validated := pr_linked p |}) prog (programs ctx)).


(** The calls of the API, as the program issues them. *)
Inductive call : Type :=
| CallCreateProgram (ret : Z)
| CallCreateShader (type ret : Z)
| CallShaderSource (name : Z) (src : string)
| CallCompileShader (name : Z)
| CallGetShaderiv (name pname : Z)
| CallGetShaderInfoLog (name bufSize : Z)
| CallDeleteShader (name : Z)
| CallAttachShader (prog name : Z)
| CallLinkProgram (prog : Z)
| CallValidateProgram (prog : Z)
| CallGetProgramiv (prog pname : Z).

End GL.

(** ** The program builder: [CompileShader] and [CreateShader] *)

Module Builder.
Import GL.

(** What the builder acts on: the driver's objects, the text written to
    [std::cout], and the API calls issued so far, oldest first. *)
Record world : Type := {
  gl : context;
  cout : string;
  calls : list call
}.

(** Stateful code that may have no defined outcome. *)
Definition M (A : Type) : Type := world -> result (A * world).

Definition ret {A} (a : A) : M A := fun w => Ok (a, w).

Definition bind {A B} (m : M A) (k : A -> M B) : M B :=
  fun w => match m w with
           | Ok (a, w') => k a w'
           | Undefined f => Undefined f
           end.

Declare Scope builder_scope.
Delimit Scope builder_scope with M.
Notation "x <- c1 ;; c2" := (bind c1 (fun x => c2))
  (at level 100, c1 at next level, c2 at level 200, right associativity)
  : builder_scope.
Notation "c1 ;; c2" := (bind c1 (fun _ => c2))
  (at level 100, c2 at level 200, right associativity) : builder_scope.
Local Open Scope builder_scope.

(** An API call: it is recorded, acts on the context, and yields [r]. *)
Definition api {A} (c : call) (f : context -> A * context) : M A :=
  fun w => let '(r, ctx) := f (gl w) in
           Ok (r, {| gl := ctx; cout := cout w; calls := calls w ++ [c] |}).

(** Reading a variable that a call was to fill in. *)
Definition read {A} (v : option A) : M A :=
  fun w => match v with
           | Some a => Ok (a, w)
           | None => Undefined Uninitialised
           end.

(** [std::cout << s] *)
Definition put (s : string) : M unit :=
  fun w => Ok (tt, {| gl := gl w; cout := cout w ++ s; calls := calls w |}).

Definition endl : M unit := put Str.nl.

(** [unsigned int] to [int], as [CreateShader] returns its handle, and
    back, as [main] stores it. *)
Definition int_of_unsigned (u : Z) : Z := (u + 2^31) mod 2^32 - 2^31.
Definition unsigned_of_int (i : Z) : Z := i mod 2^32.

Section Driver.

(** The GLSL compiler: for a stage type and a source text, the compile
    status and the info log. *)
Variable glsl_compile : Z -> string -> bool * string.

(** The linker, on the types and sources of the attached stages. *)
Variable glsl_link : list (Z * string) -> bool.

Definition glCreateProgram : M Z :=
  fun w => api (CallCreateProgram (fst (create_program (gl w))))
               (fun ctx => create_program ctx) w.

Definition glCreateShader (type : Z) : M Z :=
  fun w => api (CallCreateShader type (fst (create_shader (gl w) type)))
               (fun ctx => create_shader ctx type) w.

Definition glShaderSource (id : Z) (src : string) : M unit :=
  api (CallShaderSource id src) (fun ctx => (tt, shader_source ctx id src)).

Definition glCompileShader (id : Z) : M unit :=
  api (CallCompileShader id) (fun ctx => (tt, compile_shader glsl_compile ctx id)).

Definition glGetShaderiv (id pname : Z) : M (option Z) :=
  api (CallGetShaderiv id pname) (fun ctx => (get_shaderiv ctx id pname, ctx)).

Definition glGetShaderInfoLog (id bufSize : Z) : M (option string) :=
  api (CallGetShaderInfoLog id bufSize)
      (fun ctx => (get_shader_info_log ctx id bufSize, ctx)).

Definition glDeleteShader (id : Z) : M unit :=
  api (CallDeleteShader id) (fun ctx => (tt, delete_shader ctx id)).

Definition glAttachShader (prog id : Z) : M unit :=
  api (CallAttachShader prog id) (fun ctx => (tt, attach_shader ctx prog id)).

Definition glLinkProgram (prog : Z) : M unit :=
  api (CallLinkProgram prog) (fun ctx => (tt, link_program glsl_link ctx prog)).

Definition glValidateProgram (prog : Z) : M unit :=
  api (CallValidateProgram prog) (fun ctx => (tt, validate_program ctx prog)).

Definition CompileShader (type : Z) (source : string) : M Z :=
  id <- glCreateShader type ;;
  let src := Str.c_str source in
  glShaderSource id src ;;
  glCompileShader id ;;
  result <- glGetShaderiv id GL_COMPILE_STATUS ;;
  result <- read result ;;
  if result =? GL_FALSE then
    length <- glGetShaderiv id GL_INFO_LOG_LENGTH ;;
    length <- read length ;;
    message <- glGetShaderInfoLog id length ;;
    put "Failed to compile shader" ;;
    put (if type =? GL_VERTEX_SHADER then "vertex" else "fragment") ;;
    endl ;;
    message <- read message ;;
    put message ;;
    endl ;;
    glDeleteShader id ;;
    ret 0
  else
    ret id.

Definition CreateShader (vertexShader fragmentShader : string) : M Z :=
  program <- glCreateProgram ;;
  vs <- CompileShader GL_VERTEX_SHADER vertexShader ;;
  fs <- CompileShader GL_FRAGMENT_SHADER fragmentShader ;;
  glAttachShader program vs ;;
  glAttachShader program fs ;;
  glLinkProgram program ;;
  glValidateProgram program ;;
  glDeleteShader vs ;;
  glDeleteShader fs ;;
  ret (int_of_unsigned program).

End Driver.

End Builder.

(** ** Terms of the statements

    The loop on a list of lines, the closed forms of [CompileShader] and
    [CreateShader], and the predicates the properties below are stated
    with. *)

Module Terms.
Import Str Stream Splitter GL Builder.

(** The loop on a list of lines. *)
Fixpoint run_lines (ls : list string) (type : ShaderType) (ss : list string)
  : result (ShaderType * list string) :=
  match ls with
  | [] => Ok (type, ss)
  | l :: rest =>
      match body type ss l with
      | Ok (type', ss') => run_lines rest type' ss'
      | Undefined f => Undefined f
      end
  end.

(** A directive line that names neither stage. *)
Definition neutral_directive (l : string) : bool :=
  directive_line l && negb (found l "vertex") && negb (found l "fragment").

(** What the loop keeps true of each buffer: it is made of lines that do
    not contain the marker. *)
Definition marker_free (buf : string) : Prop :=
  exists ls, buf = unlines ls /\ Forall (fun l => found l "#shader" = false) ls.

(** The context after [glCreateShader], [glShaderSource] and
    [glCompileShader] on the new object. *)
Definition compiled_context (glsl_compile : Z -> string -> bool * string)
    (ctx : context) (type : Z) (src : string) : context :=
  compile_shader glsl_compile
    (shader_source (snd (create_shader ctx type)) (fresh ctx) src) (fresh ctx).

(** The stage compiles, or its failure leaves an info log to print: the
    cases in which [CompileShader] prints no buffer that nothing was
    stored in. *)
Definition reportable (glsl_compile : Z -> string -> bool * string)
    (type : Z) (source : string) : bool :=
  fst (glsl_compile type (c_str source))
  || negb (String.eqb (snd (glsl_compile type (c_str source))) EmptyString).

(** Every name attached to a program of the context is a shader object
    of the context. *)
Definition attachments_live (ctx : context) : bool :=
  forallb (fun '(_, p) =>
             forallb (fun name => bool_decide (is_Some (shaders ctx !! name)))
                     (pr_attached p))
          (map_to_list (programs ctx)).

(** The shader [s] with its delete status set. *)
Definition flag (s : shader) : shader :=
  {| sh_type := sh_type s; sh_source := sh_source s;
     sh_compiled := sh_compiled s; sh_log := sh_log s; sh_flagged := true |}.



(** A compiled stage of the given type is attached to [p]. *)
Definition has_stage (ctx : context) (p : program) (type : Z) : bool :=
  existsb (fun s => (sh_type s =? type) && sh_compiled s) (attached_stages ctx p).

(** A program is fully valid when it is linked and has a compiled vertex
    stage and a compiled fragment stage attached. *)
Definition fully_valid (ctx : context) (handle : Z) : bool :=
  match programs ctx !! handle with
  | Some p => pr_linked p && has_stage ctx p GL_VERTEX_SHADER
              && has_stage ctx p GL_FRAGMENT_SHADER
  | None => false
  end.

(** The calls [CompileShader] issues on the object [id]. *)
Definition compile_calls (glsl_compile : Z -> string -> bool * string)
    (type : Z) (source : string) (id : Z) : list call :=
  [CallCreateShader type id; CallShaderSource id (c_str source);
   CallCompileShader id; CallGetShaderiv id GL_COMPILE_STATUS]
  ++ (if fst (glsl_compile type (c_str source)) then []
      else [CallGetShaderiv id GL_INFO_LOG_LENGTH;
            CallGetShaderInfoLog id
              (Z.of_nat (String.length (snd (glsl_compile type (c_str source)))) + 1);
            CallDeleteShader id]).

(** The text a failed compilation puts on [std::cout]. *)
Definition diagnostic (stage log : string) : string :=
  ("Failed to compile shader" ++ stage ++ nl ++ log ++ nl)%string.

(** The stage name [CompileShader] prints for a shader type. *)
Definition stage_name (type : Z) : string :=
  if type =? GL_VERTEX_SHADER then "vertex" else "fragment".

(** The world [CompileShader] leaves, and the handle it returns, when
    the stage is reportable. *)
Definition compiled (glsl_compile : Z -> string -> bool * string)
    (type : Z) (source : string) (w : world) : Z * world :=
  let id := fresh (gl w) in
  let ctx := compiled_context glsl_compile (gl w) type (c_str source) in
  let '(ok, log) := glsl_compile type (c_str source) in
  if ok then
    (id, {| gl := ctx; cout := cout w;
            calls := calls w ++ compile_calls glsl_compile type source id |})
  else
    (0, {| gl := delete_shader ctx id;
           cout := (cout w ++ diagnostic (stage_name type) log)%string;
           calls := calls w ++ compile_calls glsl_compile type source id |}).

(** The world after [glCreateProgram]. *)
Definition program_created (w : world) : world :=
  {| gl := snd (create_program (gl w)); cout := cout w;
     calls := calls w ++ [CallCreateProgram (fst (create_program (gl w)))] |}.

(** What [CreateShader] does once both stages went through
    [CompileShader], on the handles [vs] and [fs] it got. *)
Definition link_calls (program vs fs : Z) : list call :=
  [CallAttachShader program vs; CallAttachShader program fs;
   CallLinkProgram program; CallValidateProgram program;
   CallDeleteShader vs; CallDeleteShader fs].

(** The context after those calls. *)
Definition linked_context (glsl_link : list (Z * string) -> bool)
    (ctx : context) (program vs fs : Z) : context :=
  delete_shader
    (delete_shader
       (validate_program
          (link_program glsl_link
             (attach_shader (attach_shader ctx program vs) program fs)
             program)
          program)
       vs)
    fs.

(** The world [CreateShader] leaves, and the value it returns, when
    both stages are reportable. *)
Definition built (glsl_compile : Z -> string -> bool * string)
    (glsl_link : list (Z * string) -> bool)
    (vertexShader fragmentShader : string) (w : world) : Z * world :=
  let program := fst (create_program (gl w)) in
  let '(vs, w1) := compiled glsl_compile GL_VERTEX_SHADER vertexShader
                            (program_created w) in
  let '(fs, w2) := compiled glsl_compile GL_FRAGMENT_SHADER fragmentShader w1 in
  (int_of_unsigned program,
   {| gl := linked_context glsl_link (gl w2) program vs fs;
      cout := cout w2;
      calls := calls w2 ++ link_calls program vs fs |}).

(** The calls of a whole build, given the names the driver hands out
    for the two shader objects. *)
Definition build_calls (glsl_compile : Z -> string -> bool * string)
    (vertexShader fragmentShader : string) (program id1 id2 : Z) : list call :=
  CallCreateProgram program
  :: compile_calls glsl_compile GL_VERTEX_SHADER vertexShader id1
  ++ compile_calls glsl_compile GL_FRAGMENT_SHADER fragmentShader id2
  ++ link_calls program
       (if fst (glsl_compile GL_VERTEX_SHADER (c_str vertexShader)) then id1 else 0)
       (if fst (glsl_compile GL_FRAGMENT_SHADER (c_str fragmentShader)) then id2 else 0).

(** The names of the two shader objects of a build. *)
Definition first_id (w : world) : Z := fresh (gl (program_created w)).

Definition second_id (glsl_compile : Z -> string -> bool * string)
    (vertexShader : string) (w : world) : Z :=
  fresh (gl (snd (compiled glsl_compile GL_VERTEX_SHADER vertexShader
                           (program_created w)))).

(** Calls to [glCompileShader]. *)
Definition is_compile_call (c : call) : bool :=
  match c with
  | CallCompileShader _ => true
  | _ => false
  end.

(** Calls to [glCreateShader] for the given stage type. *)
Definition creates_stage (type : Z) (c : call) : bool :=
  match c with
  | CallCreateShader t _ => t =? type
  | _ => false
  end.

(** Calls that start the fragment stage or the link. *)
Definition past_vertex_stage (c : call) : bool :=
  match c with
  | CallCreateShader t _ => t =? GL_FRAGMENT_SHADER
  | CallLinkProgram _ => true
  | _ => false
  end.

(** The build stops at a failed vertex stage: the log is reported, the
    shader object deleted, 0 returned, and neither the fragment stage
    nor the link is started. *)
Definition vertex_failure_terminal
    (glsl_compile : Z -> string -> bool * string)
    (glsl_link : list (Z * string) -> bool)
    (vertexShader fragmentShader : string) (w : world) : Prop :=
  fst (glsl_compile GL_VERTEX_SHADER (c_str vertexShader)) = false ->
  exists w' made id,
    CreateShader glsl_compile glsl_link vertexShader fragmentShader w = Ok (0, w') /\
    cout w' = (cout w ++ diagnostic "vertex"
                 (snd (glsl_compile GL_VERTEX_SHADER (c_str vertexShader))))%string /\
    calls w' = (calls w ++ made)%list /\
    In (CallCreateShader GL_VERTEX_SHADER id) made /\
    In (CallDeleteShader id) made /\
    Forall (fun c => past_vertex_stage c = false) made.




End Terms.

(** ** Concrete inputs *)

Module Samples.
Import GL Builder.

(** A file system holding one file, [default.shader]. *)
Definition one_file (txt : string) (filepath : string) : option string :=
  if String.eqb filepath "default.shader" then Some txt else None.

Definition basic_shader : string :=
  Str.unlines ["#shader vertex"; "void main()"; "{ gl_Position = position; }";
               "#shader fragment"; "void main() { color = vec4(1.0); }"].

(** The same sections, fragment first and no newline after the last line. *)
Definition reversed_shader : string :=
  (Str.unlines ["#shader fragment"; "void main() { color = vec4(1.0); }";
                "#shader vertex"; "void main()"]
   ++ "{ gl_Position = position; }")%string.

(** A content line ahead of the first directive. *)
Definition headed_shader : string :=
  Str.unlines ["// shaders of the quad"; "#shader vertex"; "void main() {}"].

Definition empty_context : context := {| shaders := ∅; programs := ∅ |}.

Definition fresh_world : world :=
  {| gl := empty_context; cout := EmptyString; calls := [] |}.

(** A compiler that rejects the text [bad] and accepts any other text. *)
Definition picky_compile (type : Z) (src : string) : bool * string :=
  if String.eqb src "bad" then (false, "0:1: syntax error")
  else (true, EmptyString).

(** A compiler that rejects the text [bad] and leaves no info log. *)
Definition silent_compile (type : Z) (src : string) : bool * string :=
  if String.eqb src "bad" then (false, EmptyString)
  else (true, EmptyString).

(** A linker that wants one vertex and one fragment stage. *)
Definition two_stage_link (stages : list (Z * string)) : bool :=
  match stages with
  | [(t1, _); (t2, _)] => (t1 =? GL_VERTEX_SHADER) && (t2 =? GL_FRAGMENT_SHADER)
  | _ => false
  end.

(** A linker that rejects every program. *)
Definition failing_link (stages : list (Z * string)) : bool := false.

End Samples.

(** ** The shader statements of [main] *)

Module Main.
Import Splitter GL Builder.

(** A computation without effect on the world. *)
Definition lift {A} (r : result A) : M A :=
  fun w => match r with
           | Ok a => Ok (a, w)
           | Undefined f => Undefined f
           end.

(** The two statements of [main] that load the program:
    [source = ParseShader("default.shader")] and
    [unsigned int shader = CreateShader(source.VertexSource,
    source.FragmentSource)].  The value is [shader]. *)
Definition main_shader (glsl_compile : Z -> string -> bool * string)
    (glsl_link : list (Z * string) -> bool)
    (fs : string -> option string) : M Z :=
  bind (lift (ParseShader fs "default.shader")) (fun source =>
  bind (CreateShader glsl_compile glsl_link
          (VertexSource source) (FragmentSource source)) (fun r =>
  ret (unsigned_of_int r))).

End Main.

(** ** Files made of sections *)

Module Files.
Import Str Splitter.

(** A section: the stage it selects, its directive line and the content
    lines that follow. *)
Record section : Type := {
  sec_vertex : bool;
  sec_directive : string;
  sec_lines : list string
}.

Definition well_formed (s : section) : bool :=
  (if sec_vertex s then vertex_directive (sec_directive s)
   else fragment_directive (sec_directive s))
  && forallb content_line (sec_lines s).

(** The lines of a file made of the sections [secs]. *)
Fixpoint file_lines (secs : list section) : list string :=
  match secs with
  | [] => []
  | s :: rest => (sec_directive s :: sec_lines s) ++ file_lines rest
  end.

(** The content lines of the sections of one stage, in file order. *)
Fixpoint stage_lines (vertex : bool) (secs : list section) : list string :=
  match secs with
  | [] => []
  | s :: rest =>
      (if Bool.eqb (sec_vertex s) vertex then sec_lines s else [])
      ++ stage_lines vertex rest
  end.

(** The first line that is not a directive without stage name is a
    content line. *)
Fixpoint content_comes_first (ls : list string) : bool :=
  match ls with
  | [] => false
  | l :: rest =>
      if found l "#shader" then
        if found l "vertex" || found l "fragment" then false
        else content_comes_first rest
      else true
  end.

(** The stage selected after the sections [secs]. *)
Fixpoint last_stage (type : ShaderType) (secs : list section) : ShaderType :=
  match secs with
  | [] => type
  | s :: rest => last_stage (if sec_vertex s then VERTEX else FRAGMENT) rest
  end.

(** The number of lines without the marker. *)
Fixpoint content_count (ls : list string) : nat :=
  match ls with
  | [] => 0%nat
  | l :: rest => ((if found l "#shader" then 0 else 1) + content_count rest)%nat
  end.

(** The lines without the marker, in file order. *)
Fixpoint content_lines (ls : list string) : list string :=
  match ls with
  | [] => []
  | l :: rest =>
      if found l "#shader" then content_lines rest else l :: content_lines rest
  end.

(** The lines of [ls] at the positions where [mask] has the value
    [keep]. *)
Fixpoint pick (keep : bool) (mask : list bool) (ls : list string) : list string :=
  match mask, ls with
  | b :: mask', l :: ls' =>
      if Bool.eqb b keep then l :: pick keep mask' ls' else pick keep mask' ls'
  | _, _ => []
  end.

End Files.

(** ** More concrete inputs *)

Module MoreSamples.
Import GL Builder Files.

(** Two vertex sections around a fragment section. *)
Definition split_sections : list section :=
  [ {| sec_vertex := true; sec_directive := "#shader vertex";
       sec_lines := ["in vec4 position;"] |};
    {| sec_vertex := false; sec_directive := "#shader fragment";
       sec_lines := ["out vec4 color;"; "void main() { color = vec4(1.0); }"] |};
    {| sec_vertex := true; sec_directive := "#shader vertex";
       sec_lines := ["void main() { gl_Position = position; }"] |} ].

(** A compiler that accepts every text, with a warning in its log. *)
Definition lenient_compile (type : Z) (src : string) : bool * string :=
  (true, "warning: no version directive").

(** A compiler that rejects the empty text, without a log. *)
Definition strict_compile (type : Z) (src : string) : bool * string :=
  if String.eqb src EmptyString then (false, EmptyString)
  else (true, EmptyString).

(** A context that already holds a shader and a program. *)
Definition used_context : context :=
  {| shaders := {[ 3 := {| sh_type := GL_VERTEX_SHADER; sh_source := "old";
                           sh_compiled := true; sh_log := Some EmptyString;
                           sh_flagged := false |} ]};
     programs := {[ 5 := {| pr_attached := [3]; pr_linked := false;
                            pr_validated := false |} ]} |}.

Definition used_world : world :=
  {| gl := used_context; cout := "ready"; calls := [] |}.



End MoreSamples.

(** * Properties *)

(** ** Strings *)

Module StrFacts.
Import Str.

Lemma append_cons (x : ascii) (a b : string) :
  (String x a ++ b = String x (a ++ b))%string.
Proof. reflexivity. Qed.

Lemma append_nil_l (a : string) : ("" ++ a = a)%string.
Proof. reflexivity. Qed.

Lemma append_assoc (a b c : string) : ((a ++ b) ++ c = a ++ (b ++ c))%string.
Proof.
  induction a as [|x a IH]; [reflexivity|].
  rewrite !append_cons, IH. reflexivity.
Qed.

Lemma append_nil_r (a : string) : (a ++ "" = a)%string.
Proof.
  induction a as [|x a IH]; [reflexivity|].
  rewrite append_cons, IH. reflexivity.
Qed.

Lemma take_all (s : string) : take (String.length s) s = s.
Proof. induction s as [|x s IH]; simpl; [reflexivity | now rewrite IH]. Qed.

Lemma unlines_app (xs ys : list string) :
  unlines (xs ++ ys)%list = (unlines xs ++ unlines ys)%string.
Proof.
  induction xs as [|x xs IH]; [reflexivity|].
  cbn [unlines app]. rewrite IH, !append_assoc. reflexivity.
Qed.

(** A needle without newline that starts a text [a ++ nl ++ b] lies
    within [a]. *)
Lemma prefix_before_newline (needle a b : string) :
  free_of newline needle = true ->
  String.prefix needle (a ++ nl ++ b) = String.prefix needle a.
Proof.
  revert a. induction needle as [|c needle IH]; intros a Hfree.
  - destruct a; reflexivity.
  - simpl in Hfree. apply andb_prop in Hfree as [Hc Hfree].
    destruct a as [|d a]; simpl.
    + destruct (ascii_dec c newline) as [->|Hne].
      * rewrite Ascii.eqb_refl in Hc. discriminate.
      * reflexivity.
    + destruct (ascii_dec c d); [apply IH; assumption | reflexivity].
Qed.

Lemma find_from_none_shift (needle s : string) (p q : nat) :
  find_from needle s p = None -> find_from needle s q = None.
Proof.
  revert p q. induction s as [|c s IH]; intros p q; cbn [find_from].
  - destruct (String.prefix needle ""); [discriminate | reflexivity].
  - destruct (String.prefix needle (String c s)); [discriminate | apply IH].
Qed.

Lemma found_cons (needle : string) (c : ascii) (s : string) :
  found (String c s) needle = String.prefix needle (String c s) || found s needle.
Proof.
  unfold found, find. cbn [find_from].
  destruct (String.prefix needle (String c s)); [reflexivity|]. cbn [orb].
  destruct (find_from needle s 1) eqn:E1, (find_from needle s 0) eqn:E0;
    try reflexivity.
  - apply (find_from_none_shift _ _ _ 1%nat) in E0. congruence.
  - apply (find_from_none_shift _ _ _ 0%nat) in E1. congruence.
Qed.

(** A needle without newline occurs in [a ++ nl ++ b] only if it occurs
    in [a] or in [b]. *)
Lemma found_across_newline (needle a b : string) (c : ascii) (rest : string) :
  needle = String c rest ->
  free_of newline needle = true ->
  found (a ++ nl ++ b) needle = found a needle || found b needle.
Proof.
  intros Hneedle Hfree. induction a as [|d a IH].
  - assert (E : ("" ++ nl ++ b)%string = String newline b) by reflexivity.
    rewrite E, found_cons, <- E.
    rewrite (prefix_before_newline needle "" b Hfree).
    subst needle. reflexivity.
  - assert (E : (String d a ++ nl ++ b)%string = String d (a ++ nl ++ b))
      by reflexivity.
    rewrite E, !found_cons, IH, <- E.
    rewrite (prefix_before_newline needle (String d a) b Hfree).
    now rewrite orb_assoc.
Qed.

Lemma found_unlines (needle : string) (c : ascii) (rest : string) (ls : list string) :
  needle = String c rest ->
  free_of newline needle = true ->
  Forall (fun l => found l needle = false) ls ->
  found (unlines ls) needle = false.
Proof.
  intros Hneedle Hfree Hall. induction Hall as [|l ls Hl _ IH]; simpl.
  - subst needle. reflexivity.
  - rewrite (found_across_newline needle l (unlines ls) c rest Hneedle Hfree).
    now rewrite Hl, IH.
Qed.

End StrFacts.

Module SplitterFacts.
Import Terms Str Stream Splitter StrFacts.

Lemma while_getline_step (stream : istream) (type : ShaderType) (ss : list string) :
  while_getline stream type ss =
  match getline stream with
  | None => Ok (type, ss)
  | Some (line, stream') =>
      match body type ss line with
      | Ok (type', ss') => while_getline stream' type' ss'
      | Undefined f => Undefined f
      end
  end.
Proof.
  rewrite while_getline_equation_1.
  generalize (inspect (getline stream)).
  intros [[[line stream']|] e]; unfold while_getline_unfold_clause_1;
    rewrite e; reflexivity.
Qed.

(** *** [getline] on a text given by its lines *)

Lemma split_line_newline (l rest : string) :
  is_line l = true -> split_line (l ++ nl ++ rest) = (l, rest).
Proof.
  unfold is_line. induction l as [|c l IH]; intros Hl.
  - reflexivity.
  - simpl in Hl. apply andb_prop in Hl as [Hc Hl].
    rewrite append_cons. cbn [split_line].
    destruct (Ascii.eqb c newline); [discriminate|].
    rewrite (IH Hl). reflexivity.
Qed.

Lemma split_line_final (l : string) :
  is_line l = true -> split_line l = (l, EmptyString).
Proof.
  unfold is_line. induction l as [|c l IH]; intros Hl.
  - reflexivity.
  - simpl in Hl. apply andb_prop in Hl as [Hc Hl]. cbn [split_line].
    destruct (Ascii.eqb c newline); [discriminate|].
    rewrite (IH Hl). reflexivity.
Qed.

Lemma split_line_is_line (s : string) : is_line (fst (split_line s)) = true.
Proof.
  unfold is_line. induction s as [|c s IH]; [reflexivity|].
  cbn [split_line]. destruct (Ascii.eqb c newline) eqn:E; [reflexivity|].
  destruct (split_line s) as [l r]. simpl in *. now rewrite E, IH.
Qed.

Lemma getline_is_line (s s' : istream) (l : string) :
  getline s = Some (l, s') -> is_line l = true.
Proof.
  unfold getline. destruct (failbit s); [discriminate|].
  destruct (pending s) as [|c rest]; [discriminate|].
  pose proof (split_line_is_line (String c rest)) as H.
  destruct (split_line (String c rest)) as [l0 r0].
  intros [= <- <-]. exact H.
Qed.

Lemma getline_shorter (s s' : istream) (l : string) :
  getline s = Some (l, s') ->
  (String.length (pending s') < String.length (pending s))%nat.
Proof.
  assert (Hsplit : forall txt,
             (String.length (snd (split_line txt)) <= String.length txt)%nat).
  { intros txt. induction txt as [|c rest IH]; simpl; [lia|].
    destruct (Ascii.eqb c newline); simpl; [lia|].
    destruct (split_line rest); simpl in *; lia. }
  unfold getline. destruct (failbit s); [discriminate|].
  destruct (pending s) as [|c rest]; [discriminate|].
  specialize (Hsplit rest). cbn [split_line].
  destruct (Ascii.eqb c newline).
  - intros [= <- <-]. simpl. lia.
  - destruct (split_line rest) as [l0 r0]. intros [= <- <-]. simpl in *. lia.
Qed.

Lemma getline_newline (l rest : string) :
  is_line l = true ->
  getline {| failbit := false; pending := l ++ nl ++ rest |}
  = Some (l, {| failbit := false; pending := rest |}).
Proof.
  intros Hl. unfold getline. cbn [failbit pending].
  rewrite (split_line_newline l rest Hl).
  destruct l; reflexivity.
Qed.

Lemma getline_final (l : string) :
  is_line l = true -> l <> EmptyString ->
  getline {| failbit := false; pending := l |}
  = Some (l, {| failbit := false; pending := EmptyString |}).
Proof.
  intros Hl Hne. unfold getline. cbn [failbit pending].
  rewrite (split_line_final l Hl).
  destruct l; [congruence | reflexivity].
Qed.

Lemma while_getline_end (type : ShaderType) (ss : list string) :
  while_getline {| failbit := false; pending := EmptyString |} type ss
  = Ok (type, ss).
Proof. rewrite while_getline_step. reflexivity. Qed.

Lemma while_getline_unlines (ls : list string) (tail : string)
      (type : ShaderType) (ss : list string) :
  Forall (fun l => is_line l = true) ls ->
  while_getline {| failbit := false; pending := unlines ls ++ tail |} type ss
  = match run_lines ls type ss with
    | Ok (type', ss') =>
        while_getline {| failbit := false; pending := tail |} type' ss'
    | Undefined f => Undefined f
    end.
Proof.
  intros Hls. revert type ss.
  induction Hls as [|l ls Hl _ IH]; intros type ss.
  - reflexivity.
  - cbn [unlines run_lines]. rewrite !append_assoc.
    rewrite while_getline_step, (getline_newline _ _ Hl).
    destruct (body type ss l) as [[type' ss']|f]; [apply IH | reflexivity].
Qed.

Lemma while_getline_lines (ls : list string) (txt : string)
      (type : ShaderType) (ss : list string) :
  Forall (fun l => is_line l = true) ls ->
  file_of_lines ls txt ->
  while_getline {| failbit := false; pending := txt |} type ss
  = run_lines ls type ss.
Proof.
  intros Hls [->|(init & final & -> & Hne & ->)].
  - rewrite <- (append_nil_r (unlines ls)), (while_getline_unlines ls "" type ss Hls).
    destruct (run_lines ls type ss) as [[type' ss']|f];
      [apply while_getline_end | reflexivity].
  - apply Forall_app in Hls as [Hinit Hfinal].
    apply Forall_inv in Hfinal.
    rewrite (while_getline_unlines init final type ss Hinit).
    revert type ss. clear Hinit.
    induction init as [|l init IH]; intros type ss; cbn [run_lines app].
    + rewrite while_getline_step, (getline_final final Hfinal Hne).
      destruct (body type ss final) as [[type' ss']|f];
        [apply while_getline_end | reflexivity].
    + destruct (body type ss l) as [[type' ss']|f]; [apply IH | reflexivity].
Qed.

End SplitterFacts.

(** ** The splitter *)

Module SplitterSpec.
Import Terms Str Stream Splitter StrFacts SplitterFacts.

(** *** Sections of content lines *)

Lemma body_content (type : ShaderType) (ss : list string) (l : string) :
  content_line l = true ->
  body type ss l
  = bind_result (ss_put ss (int_of_type type) l) (fun ss' => Ok (type, ss')).
Proof.
  unfold content_line, body. intros H. apply andb_prop in H as [_ H].
  destruct (found l "#shader"); [discriminate | reflexivity].
Qed.

Lemma ss_put_vertex (v f l : string) :
  ss_put [v; f] (int_of_type VERTEX) l = Ok [(v ++ l ++ nl)%string; f].
Proof. reflexivity. Qed.

Lemma ss_put_fragment (v f l : string) :
  ss_put [v; f] (int_of_type FRAGMENT) l = Ok [v; (f ++ l ++ nl)%string].
Proof. reflexivity. Qed.

Lemma run_lines_vertex (ls rest : list string) (v f : string) :
  Forall (fun l => content_line l = true) ls ->
  run_lines (ls ++ rest) VERTEX [v; f]
  = run_lines rest VERTEX [(v ++ unlines ls)%string; f].
Proof.
  intros Hls. revert v. induction Hls as [|l ls Hl _ IH]; intros v.
  - cbn [unlines app]. now rewrite append_nil_r.
  - cbn [app run_lines unlines]. rewrite (body_content _ _ _ Hl).
    rewrite ss_put_vertex. cbn [bind_result].
    rewrite IH, !append_assoc. reflexivity.
Qed.

Lemma run_lines_fragment (ls rest : list string) (v f : string) :
  Forall (fun l => content_line l = true) ls ->
  run_lines (ls ++ rest) FRAGMENT [v; f]
  = run_lines rest FRAGMENT [v; (f ++ unlines ls)%string].
Proof.
  intros Hls. revert f. induction Hls as [|l ls Hl _ IH]; intros f.
  - cbn [unlines app]. now rewrite append_nil_r.
  - cbn [app run_lines unlines]. rewrite (body_content _ _ _ Hl).
    rewrite ss_put_fragment. cbn [bind_result].
    rewrite IH, !append_assoc. reflexivity.
Qed.

Lemma body_vertex_directive (type : ShaderType) (ss : list string) (l : string) :
  vertex_directive l = true -> body type ss l = Ok (VERTEX, ss).
Proof.
  unfold vertex_directive, directive_line, body. intros H.
  apply andb_prop in H as [H Hv]. apply andb_prop in H as [_ Hm].
  now rewrite Hm, Hv.
Qed.

Lemma body_fragment_directive (type : ShaderType) (ss : list string) (l : string) :
  fragment_directive l = true -> body type ss l = Ok (FRAGMENT, ss).
Proof.
  unfold fragment_directive, directive_line, body. intros H.
  apply andb_prop in H as [H Hf]. apply andb_prop in H as [H Hv].
  apply andb_prop in H as [_ Hm]. apply negb_true_iff in Hv.
  now rewrite Hm, Hv, Hf.
Qed.

Lemma directive_is_line (l : string) : directive_line l = true -> is_line l = true.
Proof. unfold directive_line. intros H. now apply andb_prop in H as [H _]. Qed.

Lemma content_is_line (l : string) : content_line l = true -> is_line l = true.
Proof. unfold content_line. intros H. now apply andb_prop in H as [H _]. Qed.

Lemma ParseShader_lines (fs : string -> option string) (filepath txt : string)
      (ls : list string) :
  fs filepath = Some txt ->
  Forall (fun l => is_line l = true) ls ->
  file_of_lines ls txt ->
  ParseShader fs filepath
  = bind_result (run_lines ls NONE [EmptyString; EmptyString]) (fun '(_, ss) =>
      Ok {| VertexSource := ss_str ss 0; FragmentSource := ss_str ss 1 |}).
Proof.
  intros Hfs Hls Hfile. unfold ParseShader, open. rewrite Hfs.
  now rewrite (while_getline_lines ls txt NONE _ Hls Hfile).
Qed.

(** C1. A file made of a vertex directive, N vertex content lines, a
    fragment directive and M fragment content lines, the two sections in
    either order, is split into a [VertexSource] holding exactly the N
    vertex lines and a [FragmentSource] holding exactly the M fragment
    lines, in their order in the file, a newline after each line. *)
Theorem ParseShader_two_sections
    (fs : string -> option string) (filepath txt : string)
    (vdir fdir : string) (vlines flines : list string) :
  fs filepath = Some txt ->
  vertex_directive vdir = true ->
  fragment_directive fdir = true ->
  Forall (fun l => content_line l = true) vlines ->
  Forall (fun l => content_line l = true) flines ->
  file_of_lines (vdir :: vlines ++ fdir :: flines) txt \/
  file_of_lines (fdir :: flines ++ vdir :: vlines) txt ->
  ParseShader fs filepath
  = Ok {| VertexSource := unlines vlines; FragmentSource := unlines flines |}.
Proof.
  intros Hfs Hv Hf Hvs Hfs' Hfile.
  assert (Hvl : is_line vdir = true).
  { apply directive_is_line. unfold vertex_directive in Hv.
    now apply andb_prop in Hv as [Hv _]. }
  assert (Hfl : is_line fdir = true).
  { apply directive_is_line. unfold fragment_directive in Hf.
    apply andb_prop in Hf as [Hf _]. now apply andb_prop in Hf as [Hf _]. }
  assert (Hvsl : Forall (fun l => is_line l = true) vlines)
    by (eapply Forall_impl; [exact Hvs | apply content_is_line]).
  assert (Hfsl : Forall (fun l => is_line l = true) flines)
    by (eapply Forall_impl; [exact Hfs' | apply content_is_line]).
  destruct Hfile as [Hfile|Hfile].
  - assert (Hall : Forall (fun l => is_line l = true)
                            (vdir :: vlines ++ fdir :: flines)).
    { constructor; [exact Hvl|]. apply Forall_app. split; [exact Hvsl|].
      constructor; assumption. }
    rewrite (ParseShader_lines fs filepath txt _ Hfs Hall Hfile).
    cbn [run_lines]. rewrite (body_vertex_directive _ _ _ Hv).
    rewrite (run_lines_vertex vlines _ _ _ Hvs). cbn [run_lines].
    rewrite (body_fragment_directive _ _ _ Hf).
    rewrite <- (List.app_nil_r flines) at 1.
    rewrite (run_lines_fragment flines [] _ _ Hfs'). reflexivity.
  - assert (Hall : Forall (fun l => is_line l = true)
                            (fdir :: flines ++ vdir :: vlines)).
    { constructor; [exact Hfl|]. apply Forall_app. split; [exact Hfsl|].
      constructor; assumption. }
    rewrite (ParseShader_lines fs filepath txt _ Hfs Hall Hfile).
    cbn [run_lines]. rewrite (body_fragment_directive _ _ _ Hf).
    rewrite (run_lines_fragment flines _ _ _ Hfs'). cbn [run_lines].
    rewrite (body_vertex_directive _ _ _ Hv).
    rewrite <- (List.app_nil_r vlines) at 1.
    rewrite (run_lines_vertex vlines [] _ _ Hvs). reflexivity.
Qed.

Import Samples.

Lemma ParseShader_two_sections_witness :
  ParseShader (one_file basic_shader) "default.shader"
  = Ok {| VertexSource := unlines ["void main()"; "{ gl_Position = position; }"];
          FragmentSource := unlines ["void main() { color = vec4(1.0); }"] |}
  /\
  ParseShader (one_file reversed_shader) "default.shader"
  = Ok {| VertexSource := unlines ["void main()"; "{ gl_Position = position; }"];
          FragmentSource := unlines ["void main() { color = vec4(1.0); }"] |}.
Proof.
  split.
  - apply (ParseShader_two_sections (one_file basic_shader) "default.shader"
             basic_shader "#shader vertex" "#shader fragment").
    + reflexivity.
    + reflexivity.
    + reflexivity.
    + repeat constructor.
    + repeat constructor.
    + left. left. reflexivity.
  - apply (ParseShader_two_sections (one_file reversed_shader) "default.shader"
             reversed_shader "#shader vertex" "#shader fragment").
    + reflexivity.
    + reflexivity.
    + reflexivity.
    + repeat constructor.
    + repeat constructor.
    + right. right.
      exists ["#shader fragment"; "void main() { color = vec4(1.0); }";
              "#shader vertex"; "void main()"], "{ gl_Position = position; }".
      split; [reflexivity|]. split; [discriminate | reflexivity].
Defined.

(** *** Content outside any section *)

Lemma body_neutral_directive (type : ShaderType) (ss : list string) (l : string) :
  neutral_directive l = true -> body type ss l = Ok (type, ss).
Proof.
  unfold neutral_directive, directive_line, body. intros H.
  apply andb_prop in H as [H Hf]. apply andb_prop in H as [H Hv].
  apply andb_prop in H as [_ Hm].
  apply negb_true_iff in Hv. apply negb_true_iff in Hf.
  now rewrite Hm, Hv, Hf.
Qed.

Lemma run_lines_neutral (ls rest : list string) (type : ShaderType) (ss : list string) :
  Forall (fun l => neutral_directive l = true) ls ->
  run_lines (ls ++ rest) type ss = run_lines rest type ss.
Proof.
  intros Hls. induction Hls as [|l ls Hl _ IH]; [reflexivity|].
  cbn [app run_lines]. now rewrite (body_neutral_directive _ _ _ Hl).
Qed.

(** A content line met while no stage is selected makes the loop index
    its array of two buffers at -1. *)
Lemma ParseShader_content_before_mode
    (fs : string -> option string) (filepath txt : string)
    (pre : list string) (l : string) (rest : list string) :
  fs filepath = Some txt ->
  Forall (fun l => neutral_directive l = true) pre ->
  content_line l = true ->
  Forall (fun l => is_line l = true) rest ->
  file_of_lines (pre ++ l :: rest) txt ->
  ParseShader fs filepath = Undefined (OutOfBounds (-1) 2).
Proof.
  intros Hfs Hpre Hl Hrest Hfile.
  assert (Hall : Forall (fun l => is_line l = true) (pre ++ l :: rest)).
  { apply Forall_app. split.
    - eapply Forall_impl; [exact Hpre|]. intros x Hx.
      apply directive_is_line. unfold neutral_directive in Hx.
      apply andb_prop in Hx as [Hx _]. now apply andb_prop in Hx as [Hx _].
    - constructor; [now apply content_is_line | exact Hrest]. }
  rewrite (ParseShader_lines fs filepath txt _ Hfs Hall Hfile).
  rewrite (run_lines_neutral pre _ _ _ Hpre). cbn [run_lines].
  rewrite (body_content _ _ _ Hl). reflexivity.
Qed.

(** C5. On a file whose first line is a content line, the loop indexes
    the array [ss], of two buffers, at -1: the access is out of bounds
    and [ParseShader] has no defined outcome. *)
Theorem ParseShader_content_first_out_of_bounds :
  ParseShader (one_file headed_shader) "default.shader"
  = Undefined (OutOfBounds (-1) 2).
Proof.
  apply (ParseShader_content_before_mode (one_file headed_shader)
           "default.shader" headed_shader [] "// shaders of the quad"
           ["#shader vertex"; "void main() {}"]).
  - reflexivity.
  - constructor.
  - reflexivity.
  - repeat constructor.
  - left. reflexivity.
Qed.

(** *** Directive lines and the output *)

Lemma marker_free_found (buf : string) :
  marker_free buf -> found buf "#shader" = false.
Proof.
  intros (ls & -> & Hls).
  now apply (found_unlines "#shader" "#"%char "shader" ls).
Qed.

Lemma marker_free_put (buf l : string) :
  marker_free buf -> found l "#shader" = false ->
  marker_free (buf ++ l ++ nl).
Proof.
  intros (ls & -> & Hls) Hl. exists (ls ++ [l])%list. split.
  - rewrite unlines_app. cbn [unlines]. now rewrite append_nil_r.
  - apply Forall_app. split; [exact Hls | now constructor].
Qed.

Lemma body_marker_free (type type' : ShaderType) (ss ss' : list string) (l : string) :
  Forall marker_free ss ->
  body type ss l = Ok (type', ss') ->
  Forall marker_free ss'.
Proof.
  intros Hss. unfold body.
  destruct (found l "#shader") eqn:Hm.
  - destruct (found l "vertex"); [now intros [= _ <-]|].
    destruct (found l "fragment"); now intros [= _ <-].
  - unfold ss_put.
    destruct ((0 <=? int_of_type type) && (int_of_type type <? Z.of_nat (length ss)));
      [|discriminate].
    destruct (ss !! Z.to_nat (int_of_type type)) as [buf|] eqn:Hbuf; [|discriminate].
    cbn [bind_result]. intros [= _ <-].
    apply Forall_insert; [exact Hss|].
    apply marker_free_put; [|exact Hm].
    eapply Forall_lookup_1; eassumption.
Qed.

Lemma while_getline_marker_free (n : nat) :
  forall (stream : istream) (type type' : ShaderType) (ss ss' : list string),
    (String.length (pending stream) < n)%nat ->
    Forall marker_free ss ->
    while_getline stream type ss = Ok (type', ss') ->
    Forall marker_free ss'.
Proof.
  induction n as [|n IH]; intros stream type type' ss ss' Hn Hss; [lia|].
  rewrite while_getline_step.
  destruct (getline stream) as [[l stream']|] eqn:Hget.
  - destruct (body type ss l) as [[type1 ss1]|f] eqn:Hbody; [|discriminate].
    apply (IH stream' type1 type' ss1 ss').
    + pose proof (getline_shorter _ _ _ Hget). lia.
    + exact (body_marker_free _ _ _ _ _ Hss Hbody).
  - now intros [= _ <-].
Qed.

Lemma ss_str_marker_free (ss : list string) (i : nat) :
  Forall marker_free ss -> found (ss_str ss i) "#shader" = false.
Proof.
  intros Hss. unfold ss_str.
  destruct (ss !! i) as [buf|] eqn:Hbuf; [|reflexivity].
  apply marker_free_found. eapply Forall_lookup_1; eassumption.
Qed.

(** C6. Whatever the input file, the marker ["#shader"] occurs nowhere in
    the [VertexSource] and [FragmentSource] that [ParseShader] returns,
    so that no directive line is part of them; and on a line that
    contains the marker the loop body leaves both buffers as they are,
    changing at most the selected stage. *)
Theorem ParseShader_strips_directives
    (fs : string -> option string) (filepath : string)
    (src : ShaderProgramSource)
    (type : ShaderType) (ss : list string) (line : string) :
  ParseShader fs filepath = Ok src ->
  found line "#shader" = true ->
  (found (VertexSource src) "#shader" = false /\
   found (FragmentSource src) "#shader" = false) /\
  exists type', body type ss line = Ok (type', ss).
Proof.
  intros Hparse Hline. split.
  - unfold ParseShader in Hparse.
    destruct (while_getline _ NONE _) as [[type1 ss1]|f] eqn:Hloop;
      [|discriminate].
    cbn [bind_result] in Hparse. injection Hparse as <-. cbn [VertexSource FragmentSource].
    assert (Hss1 : Forall marker_free ss1).
    { eapply (while_getline_marker_free _ _ _ _ _ _ (Nat.lt_succ_diag_r _));
        [|exact Hloop].
      repeat constructor; exists []; split; (reflexivity || constructor). }
    split; apply ss_str_marker_free; exact Hss1.
  - unfold body. rewrite Hline.
    destruct (found line "vertex"); [eauto|].
    destruct (found line "fragment"); eauto.
Qed.

Lemma ParseShader_strips_directives_witness :
  (found (unlines ["void main()"; "{ gl_Position = position; }"]) "#shader" = false /\
   found (unlines ["void main() { color = vec4(1.0); }"]) "#shader" = false) /\
  exists type', body VERTEX ["a"; "b"] "#shader fragment" = Ok (type', ["a"; "b"]).
Proof.
  exact (ParseShader_strips_directives (one_file reversed_shader)
           "default.shader"
           {| VertexSource := unlines ["void main()"; "{ gl_Position = position; }"];
              FragmentSource := unlines ["void main() { color = vec4(1.0); }"] |}
           VERTEX ["a"; "b"] "#shader fragment" eq_refl eq_refl).
Defined.

(** C9. The empty file is split into an empty [VertexSource] and an
    empty [FragmentSource]: the loop body is never entered. *)
Theorem ParseShader_empty_file (fs : string -> option string) (filepath : string) :
  fs filepath = Some EmptyString ->
  ParseShader fs filepath
  = Ok {| VertexSource := EmptyString; FragmentSource := EmptyString |}.
Proof.
  intros Hfs. unfold ParseShader, open. rewrite Hfs.
  rewrite while_getline_end. reflexivity.
Qed.

Lemma ParseShader_empty_file_witness :
  ParseShader (one_file EmptyString) "default.shader"
  = Ok {| VertexSource := EmptyString; FragmentSource := EmptyString |}.
Proof.
  apply (ParseShader_empty_file (one_file EmptyString) "default.shader").
  reflexivity.
Defined.

(** C10. A line that contains the marker but neither ["vertex"] nor
    ["fragment"] leaves the selected stage and both buffers unchanged;
    a line that contains the marker and both words selects the vertex
    stage, whose test comes first. *)
Theorem body_directive_subtokens
    (type : ShaderType) (ss : list string) (line : string) :
  found line "#shader" = true ->
  (found line "vertex" = false -> found line "fragment" = false ->
   body type ss line = Ok (type, ss)) /\
  (found line "vertex" = true -> found line "fragment" = true ->
   body type ss line = Ok (VERTEX, ss)).
Proof.
  intros Hm. unfold body. rewrite Hm. split.
  - intros -> ->. reflexivity.
  - intros -> _. reflexivity.
Qed.

Lemma body_directive_subtokens_witness :
  body FRAGMENT ["a"; "b"] "#shader geometry" = Ok (FRAGMENT, ["a"; "b"]) /\
  body FRAGMENT ["a"; "b"] "#shader fragment, not vertex" = Ok (VERTEX, ["a"; "b"]).
Proof.
  split.
  - apply (proj1 (body_directive_subtokens FRAGMENT ["a"; "b"]
                    "#shader geometry" eq_refl)); reflexivity.
  - apply (proj2 (body_directive_subtokens FRAGMENT ["a"; "b"]
                    "#shader fragment, not vertex" eq_refl)); reflexivity.
Defined.

End SplitterSpec.

(** ** The driver's objects *)

Module GLFacts.
Import Terms GL.

Lemma max_name_ge {A} (m : gmap Z A) (k : Z) (x : A) :
  m !! k = Some x -> k <= max_name m.
Proof.
  intros Hk. apply elem_of_map_to_list in Hk. unfold max_name.
  induction (map_to_list m) as [|[k' x'] l IH]; [inversion Hk|].
  cbn [map foldr fst]. apply elem_of_cons in Hk as [[= <- <-]|Hk]; [lia|].
  specialize (IH Hk). lia.
Qed.

Lemma max_name_nonneg {A} (m : gmap Z A) : 0 <= max_name m.
Proof.
  unfold max_name. induction (map_to_list m) as [|[k x] l IH]; cbn; lia.
Qed.

Lemma fresh_pos (ctx : context) : 0 < fresh ctx.
Proof.
  unfold fresh. pose proof (max_name_nonneg (shaders ctx)). lia.
Qed.

Lemma fresh_shader (ctx : context) : shaders ctx !! fresh ctx = None.
Proof.
  destruct (shaders ctx !! fresh ctx) as [s|] eqn:E; [|reflexivity].
  apply max_name_ge in E. unfold fresh in E. lia.
Qed.

Lemma fresh_program (ctx : context) : programs ctx !! fresh ctx = None.
Proof.
  destruct (programs ctx !! fresh ctx) as [s|] eqn:E; [|reflexivity].
  apply max_name_ge in E. unfold fresh in E. lia.
Qed.

Lemma compiled_context_shader glsl_compile ctx type src :
  shaders (compiled_context glsl_compile ctx type src) !! fresh ctx
  = Some {| sh_type := type; sh_source := src;
            sh_compiled := fst (glsl_compile type src);
            sh_log := Some (snd (glsl_compile type src));
            sh_flagged := false |}.
Proof.
  unfold compiled_context, compile_shader, shader_source, create_shader.
  cbn [snd shaders set_shaders].
  rewrite !lookup_alter_eq, lookup_insert_eq. cbn.
  destruct (glsl_compile type src); reflexivity.
Qed.

Lemma compiled_context_status glsl_compile ctx type src :
  get_shaderiv (compiled_context glsl_compile ctx type src) (fresh ctx)
               GL_COMPILE_STATUS
  = Some (if fst (glsl_compile type src) then GL_TRUE else GL_FALSE).
Proof.
  unfold get_shaderiv. rewrite compiled_context_shader. reflexivity.
Qed.

Lemma info_log_length_nonempty (log : string) :
  log <> EmptyString ->
  info_log_length (Some log) = Z.of_nat (String.length log) + 1.
Proof. destruct log; [congruence | reflexivity]. Qed.

Lemma compiled_context_log_length glsl_compile ctx type src :
  get_shaderiv (compiled_context glsl_compile ctx type src) (fresh ctx)
               GL_INFO_LOG_LENGTH
  = Some (info_log_length (Some (snd (glsl_compile type src)))).
Proof.
  unfold get_shaderiv. rewrite compiled_context_shader. reflexivity.
Qed.

(** A buffer without room for a character receives nothing. *)
Lemma compiled_context_no_log glsl_compile ctx type src :
  get_shader_info_log (compiled_context glsl_compile ctx type src) (fresh ctx) 0
  = None.
Proof.
  unfold get_shader_info_log. now rewrite compiled_context_shader.
Qed.

(** A buffer of the length the driver reports receives the whole log. *)
Lemma compiled_context_log glsl_compile ctx type src :
  get_shader_info_log (compiled_context glsl_compile ctx type src) (fresh ctx)
    (Z.of_nat (String.length (snd (glsl_compile type src))) + 1)
  = Some (snd (glsl_compile type src)).
Proof.
  unfold get_shader_info_log. rewrite compiled_context_shader.
  cbn [sh_log default].
  destruct (Z.leb_spec (Z.of_nat (String.length (snd (glsl_compile type src))) + 1) 0);
    [lia|].
  replace (Z.to_nat (Z.of_nat (String.length (snd (glsl_compile type src))) + 1 - 1))
    with (String.length (snd (glsl_compile type src))) by lia.
  now rewrite StrFacts.take_all.
Qed.

Lemma compiled_context_other glsl_compile ctx type src (name : Z) :
  name <> fresh ctx ->
  shaders (compiled_context glsl_compile ctx type src) !! name
  = shaders ctx !! name.
Proof.
  intros Hne. unfold compiled_context, compile_shader, shader_source, create_shader.
  cbn [snd shaders set_shaders].
  rewrite !lookup_alter_ne, lookup_insert_ne by congruence. reflexivity.
Qed.

Lemma compiled_context_programs glsl_compile ctx type src :
  programs (compiled_context glsl_compile ctx type src) = programs ctx.
Proof. reflexivity. Qed.

Lemma delete_shader_programs ctx name :
  programs (delete_shader ctx name) = programs ctx.
Proof.
  unfold delete_shader. destruct (name =? 0); [reflexivity|].
  destruct (is_attached ctx name); reflexivity.
Qed.

Lemma attach_shader_shaders ctx prog name :
  shaders (attach_shader ctx prog name) = shaders ctx.
Proof.
  unfold attach_shader. destruct (programs ctx !! prog) as [p|]; [|reflexivity].
  destruct (shaders ctx !! name); [|reflexivity].
  destruct (bool_decide (name ∈ pr_attached p)); reflexivity.
Qed.

Lemma link_program_shaders glsl_link ctx prog :
  shaders (link_program glsl_link ctx prog) = shaders ctx.
Proof.
  unfold link_program. destruct (programs ctx !! prog); reflexivity.
Qed.

Lemma validate_program_shaders ctx prog :
  shaders (validate_program ctx prog) = shaders ctx.
Proof. reflexivity. Qed.

(** *** Programs that stay *)

Lemma attach_shader_program ctx prog name (p : Z) :
  is_Some (programs ctx !! p) ->
  is_Some (programs (attach_shader ctx prog name) !! p).
Proof.
  intros Hp. unfold attach_shader.
  destruct (programs ctx !! prog) as [pr|] eqn:E; [|exact Hp].
  destruct (shaders ctx !! name); [|exact Hp].
  destruct (bool_decide (name ∈ pr_attached pr)); [exact Hp|].
  cbn [programs set_programs]. apply lookup_insert_is_Some'. now right.
Qed.

Lemma link_program_program glsl_link ctx prog (p : Z) :
  is_Some (programs ctx !! p) ->
  is_Some (programs (link_program glsl_link ctx prog) !! p).
Proof.
  intros Hp. unfold link_program.
  destruct (programs ctx !! prog) as [pr|] eqn:E; [|exact Hp].
  cbn [programs set_programs]. apply lookup_insert_is_Some'. now right.
Qed.

Lemma validate_program_program ctx prog (p : Z) :
  is_Some (programs ctx !! p) ->
  is_Some (programs (validate_program ctx prog) !! p).
Proof.
  intros Hp. unfold validate_program. cbn [programs set_programs].
  now apply lookup_alter_is_Some.
Qed.

(** *** Program creation *)

Lemma create_program_fresh (ctx : context) :
  fresh ctx < 2^32 ->
  create_program ctx
  = (fresh ctx,
     set_programs ctx
       (<[fresh ctx := {| pr_attached := []; pr_linked := false;
                          pr_validated := false |}]> (programs ctx))).
Proof.
  intros Hroom. unfold create_program. cbv zeta.
  destruct (Z.ltb_spec (fresh ctx) (2^32)); [reflexivity | lia].
Qed.


Lemma create_program_handle (ctx : context) :
  fst (create_program ctx) = if fresh ctx <? 2^32 then fresh ctx else 0.
Proof.
  unfold create_program. cbv zeta. now destruct (fresh ctx <? 2^32).
Qed.

Lemma create_program_range (ctx : context) : 0 <= fst (create_program ctx) < 2^32.
Proof.
  rewrite create_program_handle. pose proof (fresh_pos ctx).
  destruct (Z.ltb_spec (fresh ctx) (2^32)); lia.
Qed.

Lemma create_program_shaders (ctx : context) :
  shaders (snd (create_program ctx)) = shaders ctx.
Proof.
  unfold create_program. cbv zeta. now destruct (fresh ctx <? 2^32).
Qed.

Lemma create_program_new (ctx : context) :
  fresh ctx < 2^32 ->
  programs (snd (create_program ctx)) !! fresh ctx
  = Some {| pr_attached := []; pr_linked := false; pr_validated := false |}.
Proof.
  intros Hroom. rewrite create_program_fresh by exact Hroom.
  cbn [snd programs set_programs]. now rewrite lookup_insert_eq.
Qed.

Lemma create_program_other (ctx : context) (name : Z) :
  is_Some (programs ctx !! name) ->
  programs (snd (create_program ctx)) !! name = programs ctx !! name.
Proof.
  intros Hname. unfold create_program. cbv zeta.
  destruct (fresh ctx <? 2^32); [|reflexivity].
  cbn [snd programs set_programs]. rewrite lookup_insert_ne; [reflexivity|].
  intros <-. rewrite fresh_program in Hname. now destruct Hname.
Qed.


(** *** Attached shaders *)

Lemma is_attached_spec ctx (name : Z) :
  is_attached ctx name = true <->
  exists prog p, programs ctx !! prog = Some p /\ name ∈ pr_attached p.
Proof.
  unfold is_attached. rewrite existsb_exists. split.
  - intros ([prog p] & Hin & Hb).
    apply list_elem_of_In, elem_of_map_to_list in Hin.
    apply bool_decide_eq_true in Hb. eauto.
  - intros (prog & p & Hp & Hin). exists (prog, p). split.
    + apply list_elem_of_In. now apply elem_of_map_to_list.
    + now apply bool_decide_eq_true.
Qed.

Lemma is_attached_programs ctx ctx' (name : Z) :
  programs ctx = programs ctx' -> is_attached ctx name = is_attached ctx' name.
Proof. intros H. unfold is_attached. now rewrite H. Qed.

Lemma attachments_live_spec ctx :
  attachments_live ctx = true <->
  forall prog p name, programs ctx !! prog = Some p -> name ∈ pr_attached p ->
                      is_Some (shaders ctx !! name).
Proof.
  unfold attachments_live. rewrite forallb_forall. split.
  - intros H prog p name Hp Hin.
    assert (Hl : In (prog, p) (map_to_list (programs ctx)))
      by (apply list_elem_of_In; now apply elem_of_map_to_list).
    specialize (H (prog, p) Hl). cbn in H. rewrite forallb_forall in H.
    apply (bool_decide_eq_true_1 _). apply H. now apply list_elem_of_In.
  - intros H [prog p] Hin. apply forallb_forall. intros name Hname.
    apply bool_decide_eq_true_2. apply (H prog p name).
    + apply elem_of_map_to_list. now apply list_elem_of_In.
    + now apply list_elem_of_In.
Qed.

(** In a context whose attachments are live, a name that is no shader
    object is attached to no program. *)
Lemma unattached ctx (name : Z) :
  attachments_live ctx = true -> shaders ctx !! name = None ->
  is_attached ctx name = false.
Proof.
  intros Hlive Hnone. destruct (is_attached ctx name) eqn:E; [|reflexivity].
  apply is_attached_spec in E as (prog & p & Hp & Hin).
  destruct (proj1 (attachments_live_spec ctx) Hlive prog p name Hp Hin) as [s Hs].
  congruence.
Qed.


(** *** Deletion *)

Lemma delete_shader_zero ctx : delete_shader ctx 0 = ctx.
Proof. reflexivity. Qed.


Lemma delete_shader_frees ctx (name : Z) :
  name <> 0 -> is_attached ctx name = false ->
  delete_shader ctx name = set_shaders ctx (delete name (shaders ctx)).
Proof.
  intros Hne Ha. unfold delete_shader.
  destruct (Z.eqb_spec name 0) as [|_]; [contradiction|]. now rewrite Ha.
Qed.

End GLFacts.

Module BuilderFacts.
Import Terms Str StrFacts GL GLFacts Builder.

(** *** Reportable stages *)

Lemma reportable_cases glsl_compile type source :
  reportable glsl_compile type source = true ->
  fst (glsl_compile type (c_str source)) = true \/
  (fst (glsl_compile type (c_str source)) = false /\
   snd (glsl_compile type (c_str source)) <> EmptyString).
Proof.
  unfold reportable.
  destruct (fst (glsl_compile type (c_str source))); [now left|].
  cbn [orb]. intros H. right. split; [reflexivity|].
  intros E. rewrite E in H. cbn in H. discriminate.
Qed.

Lemma unreportable_cases glsl_compile type source :
  reportable glsl_compile type source = false ->
  fst (glsl_compile type (c_str source)) = false /\
  snd (glsl_compile type (c_str source)) = EmptyString.
Proof.
  unfold reportable.
  destruct (fst (glsl_compile type (c_str source))); [discriminate|].
  cbn [orb]. intros H. split; [reflexivity|].
  apply String.eqb_eq. now destruct (String.eqb _ _).
Qed.

Lemma reportable_compiles glsl_compile type source :
  fst (glsl_compile type (c_str source)) = true ->
  reportable glsl_compile type source = true.
Proof. intros H. unfold reportable. now rewrite H. Qed.

Lemma reportable_logged glsl_compile type source :
  snd (glsl_compile type (c_str source)) <> EmptyString ->
  reportable glsl_compile type source = true.
Proof.
  intros H. unfold reportable.
  destruct (String.eqb_spec (snd (glsl_compile type (c_str source))) EmptyString);
    [contradiction|].
  apply orb_true_r.
Qed.

(** *** The closed forms *)

Lemma CompileShader_compiled glsl_compile type source w :
  reportable glsl_compile type source = true ->
  CompileShader glsl_compile type source w
  = Ok (compiled glsl_compile type source w).
Proof.
  intros Hrep. apply reportable_cases in Hrep.
  unfold CompileShader, bind.
  unfold glCreateShader, api at 1. cbn [create_shader fst snd gl cout calls].
  unfold glShaderSource, api at 1. cbn [gl cout calls].
  unfold glCompileShader, api at 1. cbn [gl cout calls].
  unfold glGetShaderiv at 1, api at 1. cbn [gl cout calls].
  change (compile_shader glsl_compile (shader_source (set_shaders (gl w) _) _ _) _)
    with (compiled_context glsl_compile (gl w) type (c_str source)).
  rewrite compiled_context_status.
  unfold compiled, compile_calls.
  pose proof (compiled_context_log_length glsl_compile (gl w) type (c_str source))
    as Hlen.
  pose proof (compiled_context_log glsl_compile (gl w) type (c_str source))
    as Hlog.
  destruct (glsl_compile type (c_str source)) as [ok log].
  cbn [fst snd] in *. destruct ok; cbn [read].
  - change (GL_TRUE =? GL_FALSE) with false. cbv iota. unfold ret.
    rewrite <- !List.app_assoc. reflexivity.
  - destruct Hrep as [Hrep|[_ Hne]]; [discriminate|].
    rewrite info_log_length_nonempty in Hlen by exact Hne.
    change (GL_FALSE =? GL_FALSE) with true. cbv iota.
    unfold glGetShaderiv, api at 1. cbn [gl cout calls].
    rewrite Hlen. cbn [read].
    unfold glGetShaderInfoLog, api at 1. cbn [gl cout calls].
    rewrite Hlog.
    unfold put at 1. cbn [gl cout calls].
    unfold put at 1. cbn [gl cout calls].
    unfold endl at 1, put at 1. cbn [gl cout calls read].
    unfold put at 1. cbn [gl cout calls].
    unfold endl at 1, put at 1. cbn [gl cout calls].
    unfold glDeleteShader, api, ret. cbn [gl cout calls].
    unfold diagnostic, stage_name.
    rewrite !append_assoc, <- !List.app_assoc. reflexivity.
Qed.

(** A failure without info log: the length is 0, nothing is stored in
    the buffer, and the buffer is printed. *)
Lemma CompileShader_unreported glsl_compile type source w :
  reportable glsl_compile type source = false ->
  CompileShader glsl_compile type source w = Undefined Uninitialised.
Proof.
  intros Hrep. apply unreportable_cases in Hrep as [Hfail Hlog].
  unfold CompileShader, bind.
  unfold glCreateShader, api at 1. cbn [create_shader fst snd gl cout calls].
  unfold glShaderSource, api at 1. cbn [gl cout calls].
  unfold glCompileShader, api at 1. cbn [gl cout calls].
  unfold glGetShaderiv at 1, api at 1. cbn [gl cout calls].
  change (compile_shader glsl_compile (shader_source (set_shaders (gl w) _) _ _) _)
    with (compiled_context glsl_compile (gl w) type (c_str source)).
  rewrite compiled_context_status, Hfail. cbn [read].
  change (GL_FALSE =? GL_FALSE) with true. cbv iota.
  unfold glGetShaderiv, api at 1. cbn [gl cout calls].
  rewrite compiled_context_log_length, Hlog. cbn [info_log_length read].
  unfold glGetShaderInfoLog, api at 1. cbn [gl cout calls].
  rewrite compiled_context_no_log. reflexivity.
Qed.

Lemma CreateShader_built glsl_compile glsl_link vertexShader fragmentShader w :
  reportable glsl_compile GL_VERTEX_SHADER vertexShader = true ->
  reportable glsl_compile GL_FRAGMENT_SHADER fragmentShader = true ->
  CreateShader glsl_compile glsl_link vertexShader fragmentShader w
  = Ok (built glsl_compile glsl_link vertexShader fragmentShader w).
Proof.
  intros Hv Hf. unfold CreateShader, bind.
  unfold glCreateProgram, api at 1. unfold built, program_created.
  destruct (create_program (gl w)) as [program ctx0]. cbn [fst snd gl cout calls].
  rewrite CompileShader_compiled by exact Hv.
  destruct (compiled glsl_compile GL_VERTEX_SHADER vertexShader _) as [vs w1].
  rewrite CompileShader_compiled by exact Hf.
  destruct (compiled glsl_compile GL_FRAGMENT_SHADER fragmentShader w1) as [fs w2].
  unfold glAttachShader, glLinkProgram, glValidateProgram, glDeleteShader, api, ret.
  cbn [gl cout calls]. unfold linked_context, link_calls.
  rewrite <- !List.app_assoc. reflexivity.
Qed.

Lemma CreateShader_unreported glsl_compile glsl_link vertexShader fragmentShader w :
  reportable glsl_compile GL_VERTEX_SHADER vertexShader = false \/
  reportable glsl_compile GL_FRAGMENT_SHADER fragmentShader = false ->
  CreateShader glsl_compile glsl_link vertexShader fragmentShader w
  = Undefined Uninitialised.
Proof.
  intros H. unfold CreateShader, bind.
  unfold glCreateProgram, api at 1.
  destruct (create_program (gl w)) as [program ctx0]. cbn [gl cout calls].
  destruct (reportable glsl_compile GL_VERTEX_SHADER vertexShader) eqn:Hv.
  - destruct H as [H|H]; [discriminate|].
    rewrite CompileShader_compiled by exact Hv.
    destruct (compiled glsl_compile GL_VERTEX_SHADER vertexShader _) as [vs w1].
    now rewrite CompileShader_unreported.
  - now rewrite CompileShader_unreported.
Qed.

Lemma compiled_calls glsl_compile type source w :
  calls (snd (compiled glsl_compile type source w))
  = (calls w ++ compile_calls glsl_compile type source (fresh (gl w)))%list.
Proof.
  unfold compiled. destruct (glsl_compile type (c_str source)) as [[] log];
    reflexivity.
Qed.

Lemma compiled_handle glsl_compile type source w :
  fst (compiled glsl_compile type source w)
  = if fst (glsl_compile type (c_str source)) then fresh (gl w) else 0.
Proof.
  unfold compiled. destruct (glsl_compile type (c_str source)) as [[] log];
    reflexivity.
Qed.

Lemma compiled_cout glsl_compile type source w :
  cout (snd (compiled glsl_compile type source w))
  = if fst (glsl_compile type (c_str source)) then cout w
    else (cout w ++ diagnostic (stage_name type)
                               (snd (glsl_compile type (c_str source))))%string.
Proof.
  unfold compiled. destruct (glsl_compile type (c_str source)) as [[] log];
    reflexivity.
Qed.

Lemma compiled_gl glsl_compile type source w :
  gl (snd (compiled glsl_compile type source w))
  = if fst (glsl_compile type (c_str source))
    then compiled_context glsl_compile (gl w) type (c_str source)
    else delete_shader (compiled_context glsl_compile (gl w) type (c_str source))
                       (fresh (gl w)).
Proof.
  unfold compiled. destruct (glsl_compile type (c_str source)) as [[] log];
    reflexivity.
Qed.

Lemma program_created_handle (w : world) :
  fresh (gl w) < 2^32 -> fst (create_program (gl w)) = fresh (gl w).
Proof. intros Hroom. now rewrite create_program_fresh. Qed.

Lemma built_calls glsl_compile glsl_link vertexShader fragmentShader w :
  calls (snd (built glsl_compile glsl_link vertexShader fragmentShader w))
  = (calls w ++ build_calls glsl_compile vertexShader fragmentShader
                            (fst (create_program (gl w))) (first_id w)
                            (second_id glsl_compile vertexShader w))%list.
Proof.
  unfold built, first_id, second_id.
  pose proof (compiled_calls glsl_compile GL_VERTEX_SHADER vertexShader
                (program_created w)) as Hc1.
  pose proof (compiled_handle glsl_compile GL_VERTEX_SHADER vertexShader
                (program_created w)) as Hh1.
  destruct (compiled glsl_compile GL_VERTEX_SHADER vertexShader (program_created w))
    as [vs w1].
  pose proof (compiled_calls glsl_compile GL_FRAGMENT_SHADER fragmentShader w1) as Hc2.
  pose proof (compiled_handle glsl_compile GL_FRAGMENT_SHADER fragmentShader w1) as Hh2.
  destruct (compiled glsl_compile GL_FRAGMENT_SHADER fragmentShader w1) as [fs w2].
  cbn [fst snd] in *.
  cbn [calls snd]. rewrite Hc2, Hc1, Hh1, Hh2. unfold build_calls.
  cbn [calls program_created]. rewrite <- !List.app_assoc. reflexivity.
Qed.

Lemma built_gl glsl_compile glsl_link vertexShader fragmentShader w :
  gl (snd (built glsl_compile glsl_link vertexShader fragmentShader w))
  = let w1 := snd (compiled glsl_compile GL_VERTEX_SHADER vertexShader
                            (program_created w)) in
    let w2 := snd (compiled glsl_compile GL_FRAGMENT_SHADER fragmentShader w1) in
    linked_context glsl_link (gl w2) (fst (create_program (gl w)))
      (if fst (glsl_compile GL_VERTEX_SHADER (c_str vertexShader))
       then first_id w else 0)
      (if fst (glsl_compile GL_FRAGMENT_SHADER (c_str fragmentShader))
       then second_id glsl_compile vertexShader w else 0).
Proof.
  unfold built, first_id, second_id.
  pose proof (compiled_handle glsl_compile GL_VERTEX_SHADER vertexShader
                (program_created w)) as Hh1.
  destruct (compiled glsl_compile GL_VERTEX_SHADER vertexShader (program_created w))
    as [vs w1].
  cbn [fst snd] in *.
  pose proof (compiled_handle glsl_compile GL_FRAGMENT_SHADER fragmentShader w1) as Hh2.
  destruct (compiled glsl_compile GL_FRAGMENT_SHADER fragmentShader w1) as [fs w2].
  cbn [fst snd gl] in *. now rewrite Hh1, Hh2.
Qed.

Lemma built_value glsl_compile glsl_link vertexShader fragmentShader w :
  fst (built glsl_compile glsl_link vertexShader fragmentShader w)
  = int_of_unsigned (fst (create_program (gl w))).
Proof.
  unfold built.
  destruct (compiled glsl_compile GL_VERTEX_SHADER vertexShader (program_created w))
    as [vs w1].
  destruct (compiled glsl_compile GL_FRAGMENT_SHADER fragmentShader w1) as [fs w2].
  reflexivity.
Qed.

Lemma built_cout glsl_compile glsl_link vertexShader fragmentShader w :
  cout (snd (built glsl_compile glsl_link vertexShader fragmentShader w))
  = (cout w
     ++ (if fst (glsl_compile GL_VERTEX_SHADER (c_str vertexShader)) then ""
         else diagnostic "vertex"
                (snd (glsl_compile GL_VERTEX_SHADER (c_str vertexShader))))
     ++ (if fst (glsl_compile GL_FRAGMENT_SHADER (c_str fragmentShader)) then ""
         else diagnostic "fragment"
                (snd (glsl_compile GL_FRAGMENT_SHADER (c_str fragmentShader)))))%string.
Proof.
  unfold built.
  pose proof (compiled_cout glsl_compile GL_VERTEX_SHADER vertexShader
                (program_created w)) as Hc1.
  destruct (compiled glsl_compile GL_VERTEX_SHADER vertexShader (program_created w))
    as [vs w1].
  pose proof (compiled_cout glsl_compile GL_FRAGMENT_SHADER fragmentShader w1) as Hc2.
  destruct (compiled glsl_compile GL_FRAGMENT_SHADER fragmentShader w1) as [fs w2].
  cbn [fst snd cout] in *. rewrite Hc2, Hc1. cbn [cout program_created].
  change (stage_name GL_VERTEX_SHADER) with "vertex".
  change (stage_name GL_FRAGMENT_SHADER) with "fragment".
  destruct (fst (glsl_compile GL_VERTEX_SHADER (c_str vertexShader)));
    destruct (fst (glsl_compile GL_FRAGMENT_SHADER (c_str fragmentShader)));
    rewrite ?append_assoc, ?append_nil_r; reflexivity.
Qed.

Lemma int_of_unsigned_inv (u : Z) :
  0 <= u < 2^32 -> unsigned_of_int (int_of_unsigned u) = u.
Proof.
  intros Hu. unfold unsigned_of_int, int_of_unsigned.
  rewrite Zminus_mod_idemp_l.
  replace (u + 2^31 - 2^31) with u by lia. now apply Z.mod_small.
Qed.

(** *** Valid programs *)

Lemma is_attached_intro ctx (prog name : Z) (p : program) :
  programs ctx !! prog = Some p -> name ∈ pr_attached p ->
  is_attached ctx name = true.
Proof.
  intros Hp Hin. unfold is_attached. apply existsb_exists.
  exists (prog, p). split.
  - apply list_elem_of_In. now apply elem_of_map_to_list.
  - now apply bool_decide_eq_true.
Qed.

Lemma delete_shader_attached ctx (prog name : Z) (p : program) :
  name <> 0 -> programs ctx !! prog = Some p -> name ∈ pr_attached p ->
  delete_shader ctx name = set_shaders ctx (alter flag name (shaders ctx)).
Proof.
  intros Hne Hp Hin. unfold delete_shader.
  destruct (Z.eqb_spec name 0) as [|_]; [contradiction|].
  now rewrite (is_attached_intro ctx prog name p Hp Hin).
Qed.

Lemma linked_context_valid glsl_link ctx (prog id1 id2 : Z) (s1 s2 : shader) :
  programs ctx !! prog
  = Some {| pr_attached := []; pr_linked := false; pr_validated := false |} ->
  shaders ctx !! id1 = Some s1 -> shaders ctx !! id2 = Some s2 ->
  id1 <> id2 -> id1 <> 0 -> id2 <> 0 ->
  sh_type s1 = GL_VERTEX_SHADER -> sh_type s2 = GL_FRAGMENT_SHADER ->
  sh_compiled s1 = true -> sh_compiled s2 = true ->
  fully_valid (linked_context glsl_link ctx prog id1 id2) prog
  = glsl_link [(GL_VERTEX_SHADER, sh_source s1); (GL_FRAGMENT_SHADER, sh_source s2)].
Proof.
  intros Hp H1 H2 Hne H10 H20 Ht1 Ht2 Hc1 Hc2.
  set (accepted := glsl_link [(GL_VERTEX_SHADER, sh_source s1);
                              (GL_FRAGMENT_SHADER, sh_source s2)]).
  unfold linked_context.
  (* the two attachments *)
  set (ctxa := attach_shader ctx prog id1).
  assert (Hpa : programs ctxa !! prog
                = Some {| pr_attached := [id1]; pr_linked := false;
                          pr_validated := false |}).
  { subst ctxa. unfold attach_shader. rewrite Hp, H1. cbn [pr_attached].
    rewrite bool_decide_eq_false_2 by (apply not_elem_of_nil).
    cbn [programs set_programs]. now rewrite lookup_insert_eq. }
  assert (Hsa : shaders ctxa = shaders ctx) by apply attach_shader_shaders.
  set (ctxb := attach_shader ctxa prog id2).
  assert (Hpb : programs ctxb !! prog
                = Some {| pr_attached := [id1; id2]; pr_linked := false;
                          pr_validated := false |}).
  { subst ctxb. unfold attach_shader. rewrite Hpa, Hsa, H2. cbn [pr_attached].
    rewrite bool_decide_eq_false_2
      by (intros Hin; apply list_elem_of_singleton in Hin; congruence).
    cbn [programs set_programs]. now rewrite lookup_insert_eq. }
  assert (Hsb : shaders ctxb = shaders ctx)
    by (subst ctxb; now rewrite attach_shader_shaders).
  (* linking and validation *)
  set (ctxc := link_program glsl_link ctxb prog).
  assert (Hpc : programs ctxc !! prog
                = Some {| pr_attached := [id1; id2]; pr_linked := accepted;
                          pr_validated := false |}).
  { subst ctxc. unfold link_program. rewrite Hpb.
    cbn [programs set_programs pr_attached pr_validated].
    rewrite lookup_insert_eq. do 2 f_equal.
    unfold link_status, attached_stages. cbn [pr_attached omap list_omap].
    rewrite Hsb, H1, H2. cbn [forallb map]. now rewrite Hc1, Hc2, Ht1, Ht2. }
  assert (Hsc : shaders ctxc = shaders ctx)
    by (subst ctxc; now rewrite link_program_shaders).
  set (ctxd := validate_program ctxc prog).
  assert (Hpd : programs ctxd !! prog
                = Some {| pr_attached := [id1; id2]; pr_linked := accepted;
                          pr_validated := accepted |}).
  { subst ctxd. unfold validate_program. cbn [programs set_programs].
    now rewrite lookup_alter_eq, Hpc. }
  assert (Hsd : shaders ctxd = shaders ctx) by (subst ctxd; exact Hsc).
  (* the two deletions only flag the attached shaders *)
  rewrite (delete_shader_attached ctxd prog id1 _ H10 Hpd)
    by (apply list_elem_of_In; simpl; tauto).
  set (ctxe := set_shaders ctxd _).
  assert (Hpe : programs ctxe !! prog
                = Some {| pr_attached := [id1; id2]; pr_linked := accepted;
                          pr_validated := accepted |}) by exact Hpd.
  rewrite (delete_shader_attached ctxe prog id2 _ H20 Hpe)
    by (apply list_elem_of_In; simpl; tauto).
  unfold fully_valid. cbn [programs set_shaders]. rewrite Hpe.
  unfold has_stage, attached_stages.
  cbn [pr_attached pr_linked shaders set_shaders omap list_omap].
  subst ctxe. cbn [shaders set_shaders]. rewrite Hsd.
  rewrite lookup_alter_ne, lookup_alter_eq, H1 by congruence.
  rewrite lookup_alter_eq, lookup_alter_ne, H2 by congruence.
  cbn. rewrite Ht1, Ht2, Hc1, Hc2. cbn. destruct accepted; reflexivity.
Qed.

(** *** What a build leaves of its program *)

Lemma compiled_programs glsl_compile type source w :
  programs (gl (snd (compiled glsl_compile type source w))) = programs (gl w).
Proof.
  rewrite compiled_gl.
  destruct (fst (glsl_compile type (c_str source))); [reflexivity|].
  now rewrite delete_shader_programs.
Qed.

Lemma linked_context_program glsl_link ctx (prog vs fs : Z) :
  is_Some (programs ctx !! prog) ->
  exists p, programs (linked_context glsl_link ctx prog vs fs) !! prog = Some p /\
            (pr_linked p = true -> exists stages, glsl_link stages = true).
Proof.
  intros Hp. unfold linked_context. rewrite !delete_shader_programs.
  apply (attach_shader_program _ prog vs) in Hp.
  apply (attach_shader_program _ prog fs) in Hp.
  set (ctxb := attach_shader (attach_shader ctx prog vs) prog fs) in *.
  destruct Hp as [p Hp].
  unfold validate_program, link_program. rewrite Hp.
  cbn [programs set_programs]. rewrite lookup_alter_eq, lookup_insert_eq.
  eexists. split; [reflexivity|]. cbn [pr_linked]. unfold link_status.
  intros H. apply andb_prop in H as [_ H]. eauto.
Qed.

Lemma program_created_program (w : world) :
  fresh (gl w) < 2^32 ->
  programs (gl (program_created w)) !! fresh (gl w)
  = Some {| pr_attached := []; pr_linked := false; pr_validated := false |}.
Proof. intros Hroom. cbn [program_created gl]. now apply create_program_new. Qed.

Lemma program_created_shaders (w : world) :
  shaders (gl (program_created w)) = shaders (gl w).
Proof. cbn [program_created gl]. apply create_program_shaders. Qed.

Lemma built_program glsl_compile glsl_link vertexShader fragmentShader w :
  fresh (gl w) < 2^32 ->
  exists p,
    programs (gl (snd (built glsl_compile glsl_link vertexShader fragmentShader w)))
    !! fresh (gl w) = Some p /\
    (pr_linked p = true -> exists stages, glsl_link stages = true).
Proof.
  intros Hroom. rewrite built_gl. cbv zeta.
  rewrite program_created_handle by exact Hroom.
  apply linked_context_program.
  rewrite !compiled_programs, program_created_program by exact Hroom. eauto.
Qed.

Lemma built_valid glsl_compile glsl_link vertexShader fragmentShader w :
  fresh (gl w) < 2^32 ->
  fst (glsl_compile GL_VERTEX_SHADER (c_str vertexShader)) = true ->
  fst (glsl_compile GL_FRAGMENT_SHADER (c_str fragmentShader)) = true ->
  fully_valid (gl (snd (built glsl_compile glsl_link vertexShader fragmentShader w)))
              (fresh (gl w))
  = glsl_link [(GL_VERTEX_SHADER, c_str vertexShader);
               (GL_FRAGMENT_SHADER, c_str fragmentShader)].
Proof.
  intros Hroom Hv Hf. rewrite built_gl. cbv zeta. rewrite Hv, Hf.
  rewrite program_created_handle by exact Hroom.
  unfold second_id, first_id. rewrite !compiled_gl, Hv, Hf.
  pose proof (program_created_program w Hroom) as Hp0.
  set (ctx1 := gl (program_created w)) in *.
  set (ctx2 := compiled_context glsl_compile ctx1 GL_VERTEX_SHADER (c_str vertexShader)).
  set (ctx3 := compiled_context glsl_compile ctx2 GL_FRAGMENT_SHADER
                                (c_str fragmentShader)).
  pose proof (compiled_context_shader glsl_compile ctx1 GL_VERTEX_SHADER
                (c_str vertexShader)) as H1.
  pose proof (compiled_context_shader glsl_compile ctx2 GL_FRAGMENT_SHADER
                (c_str fragmentShader)) as H2.
  fold ctx2 in H1. fold ctx3 in H2.
  assert (Hne : fresh ctx1 <> fresh ctx2).
  { intros Heq. pose proof (fresh_shader ctx2) as Hnone.
    rewrite <- Heq, H1 in Hnone. discriminate. }
  assert (H1' : shaders ctx3 !! fresh ctx1 = shaders ctx2 !! fresh ctx1)
    by (apply compiled_context_other; exact Hne).
  rewrite H1 in H1'.
  pose proof (fresh_pos ctx1). pose proof (fresh_pos ctx2).
  assert (Hp : programs ctx3 !! fresh (gl w)
               = Some {| pr_attached := []; pr_linked := false;
                         pr_validated := false |}) by exact Hp0.
  assert (H10 : fresh ctx1 <> 0) by lia.
  assert (H20 : fresh ctx2 <> 0) by lia.
  now rewrite (linked_context_valid glsl_link ctx3 (fresh (gl w)) (fresh ctx1)
                 (fresh ctx2) _ _ Hp H1' H2 Hne H10 H20 eq_refl eq_refl Hv Hf).
Qed.

(** *** Stages that did not compile *)

Lemma delete_shader_other ctx (name other : Z) :
  name <> other ->
  shaders (delete_shader ctx name) !! other = shaders ctx !! other.
Proof.
  intros Hne. unfold delete_shader. destruct (name =? 0); [reflexivity|].
  destruct (is_attached ctx name); cbn [shaders set_shaders].
  - now rewrite lookup_alter_ne.
  - now rewrite lookup_delete_ne.
Qed.


Lemma compiled_other glsl_compile type source w (other : Z) :
  other <> fresh (gl w) ->
  shaders (gl (snd (compiled glsl_compile type source w))) !! other
  = shaders (gl w) !! other.
Proof.
  intros Hne. rewrite compiled_gl.
  destruct (fst (glsl_compile type (c_str source))).
  - now apply compiled_context_other.
  - rewrite delete_shader_other by congruence. now apply compiled_context_other.
Qed.

Lemma compiled_stage glsl_compile type source w :
  fst (glsl_compile type (c_str source)) = true ->
  exists s, shaders (gl (snd (compiled glsl_compile type source w))) !! fresh (gl w)
            = Some s /\ sh_type s = type.
Proof.
  intros Hok. rewrite compiled_gl, Hok, compiled_context_shader. eauto.
Qed.








(** *** A build without program *)



(** *** The shader objects a build leaves *)


(** A failed stage whose name is attached to no program is deleted: the
    shader objects are those of before. *)
Lemma compiled_freed glsl_compile type source w (name : Z) :
  fst (glsl_compile type (c_str source)) = false ->
  is_attached (gl w) (fresh (gl w)) = false ->
  shaders (gl (snd (compiled glsl_compile type source w))) !! name
  = shaders (gl w) !! name.
Proof.
  intros Hfail Hfree. rewrite compiled_gl, Hfail.
  pose proof (fresh_pos (gl w)) as Hpos.
  rewrite delete_shader_frees; [|lia|].
  - cbn [shaders set_shaders].
    destruct (decide (name = fresh (gl w))) as [->|Hne].
    + now rewrite lookup_delete_eq, fresh_shader.
    + rewrite lookup_delete_ne by congruence. now apply compiled_context_other.
  - now rewrite (is_attached_programs _ (gl w)).
Qed.



Lemma attach_shader_exact ctx (prog name : Z) (p : program) :
  programs ctx !! prog = Some p ->
  programs (attach_shader ctx prog name) !! prog
  = Some {| pr_attached :=
              match shaders ctx !! name with
              | Some _ => if bool_decide (name ∈ pr_attached p) then pr_attached p
                          else pr_attached p ++ [name]
              | None => pr_attached p
              end;
            pr_linked := pr_linked p; pr_validated := pr_validated p |}.
Proof.
  intros Hp. unfold attach_shader. rewrite Hp.
  destruct (shaders ctx !! name); [|now destruct p].
  destruct (bool_decide (name ∈ pr_attached p)); [now destruct p|].
  cbn [programs set_programs]. now rewrite lookup_insert_eq.
Qed.









(** *** The calls of a stage *)

Lemma filter_compile_calls glsl_compile type source id :
  filter (fun c => is_compile_call c = true)
         (compile_calls glsl_compile type source id)
  = [CallCompileShader id].
Proof.
  unfold compile_calls.
  destruct (fst (glsl_compile type (c_str source))); reflexivity.
Qed.

Lemma filter_creates_stage glsl_compile type source id (stage : Z) :
  filter (fun c => creates_stage stage c = true)
         (compile_calls glsl_compile type source id)
  = if type =? stage then [CallCreateShader type id] else [].
Proof.
  unfold compile_calls.
  destruct (fst (glsl_compile type (c_str source))); cbn;
    unfold filter; cbn; destruct (Z.eqb_spec type stage);
    repeat case_decide; try reflexivity; try congruence.
Qed.


(** *** The shader objects after a build without program *)





End BuilderFacts.

(** ** The program builder *)

Module BuilderSpec.
Import Terms Str StrFacts GL GLFacts Builder BuilderFacts Samples MoreSamples.

(** *** Compile failures *)

(** C7. A stage whose compilation fails and leaves no info log: the
    driver answers 0 for the length of the log, [glGetShaderInfoLog]
    stores nothing in the buffer of that length, and [CompileShader]
    prints the buffer.  Neither [CompileShader] nor a build with such a
    stage, vertex or fragment, has a defined outcome, where the stage
    name followed by the log was to be reported. *)
Theorem CompileShader_prints_unwritten_buffer :
  silent_compile GL_VERTEX_SHADER (c_str "bad") = (false, EmptyString) /\
  get_shaderiv (compiled_context silent_compile empty_context GL_VERTEX_SHADER "bad")
               1 GL_INFO_LOG_LENGTH = Some 0 /\
  get_shader_info_log
    (compiled_context silent_compile empty_context GL_VERTEX_SHADER "bad") 1 0
  = None /\
  CompileShader silent_compile GL_VERTEX_SHADER "bad" fresh_world
  = Undefined Uninitialised /\
  CreateShader silent_compile two_stage_link "bad" "void main() {}" fresh_world
  = Undefined Uninitialised /\
  CreateShader silent_compile two_stage_link "void main() {}" "bad" fresh_world
  = Undefined Uninitialised.
Proof.
  split; [reflexivity|]. split; [reflexivity|]. split; [reflexivity|].
  split; [|split].
  - now apply CompileShader_unreported.
  - apply CreateShader_unreported. now left.
  - apply CreateShader_unreported. now right.
Qed.

(** *** A vertex stage that does not compile *)

Lemma CreateShader_vertex_failure_not_terminal :
  ~ vertex_failure_terminal picky_compile two_stage_link
      "bad" "void main() {}" fresh_world
  /\ exists w',
      CreateShader picky_compile two_stage_link "bad" "void main() {}" fresh_world
      = Ok (1, w') /\
      In (CallCreateShader GL_FRAGMENT_SHADER 2) (calls w') /\
      In (CallCompileShader 2) (calls w') /\
      In (CallLinkProgram 1) (calls w').
Proof.
  split.
  - intros H. destruct (H eq_refl) as (w' & made & id & Hrun & _).
    vm_compute in Hrun. discriminate.
  - eexists. split; [vm_compute; reflexivity|].
    cbn. repeat split; tauto.
Qed.

(** C2, as the code has it.  When the vertex text does not compile and
    the compiler leaves a log, [CompileShader] reports the log under
    the stage name [vertex], deletes the shader object, so that the
    shader objects are those of before, and returns 0.  [CreateShader]
    does not look at that value: it goes on to compile the fragment
    stage and, that stage compiling or leaving a log, attaches, links
    and validates, and returns the value [glCreateProgram] gave it,
    the name of a program object when one was created. *)
Theorem CreateShader_after_vertex_failure
    (glsl_compile : Z -> string -> bool * string)
    (glsl_link : list (Z * string) -> bool)
    (vertexShader fragmentShader : string) (w : world) :
  fst (glsl_compile GL_VERTEX_SHADER (c_str vertexShader)) = false ->
  snd (glsl_compile GL_VERTEX_SHADER (c_str vertexShader)) <> EmptyString ->
  reportable glsl_compile GL_FRAGMENT_SHADER fragmentShader = true ->
  attachments_live (gl w) = true ->
  (exists w1,
      CompileShader glsl_compile GL_VERTEX_SHADER vertexShader w = Ok (0, w1) /\
      cout w1
      = (cout w ++ "Failed to compile shader" ++ "vertex" ++ nl
         ++ snd (glsl_compile GL_VERTEX_SHADER (c_str vertexShader)) ++ nl)%string /\
      calls w1
      = (calls w
         ++ [CallCreateShader GL_VERTEX_SHADER (fresh (gl w));
             CallShaderSource (fresh (gl w)) (c_str vertexShader);
             CallCompileShader (fresh (gl w));
             CallGetShaderiv (fresh (gl w)) GL_COMPILE_STATUS;
             CallGetShaderiv (fresh (gl w)) GL_INFO_LOG_LENGTH;
             CallGetShaderInfoLog (fresh (gl w))
               (Z.of_nat (String.length
                            (snd (glsl_compile GL_VERTEX_SHADER (c_str vertexShader))))
                + 1);
             CallDeleteShader (fresh (gl w))])%list /\
      shaders (gl w1) !! fresh (gl w) = None /\
      forall name, shaders (gl w1) !! name = shaders (gl w) !! name) /\
  exists w' id1 id2 fs,
    CreateShader glsl_compile glsl_link vertexShader fragmentShader w
    = Ok (int_of_unsigned (fst (create_program (gl w))), w') /\
    cout w'
    = (cout w ++ ("Failed to compile shader" ++ "vertex" ++ nl
                  ++ snd (glsl_compile GL_VERTEX_SHADER (c_str vertexShader)) ++ nl)
       ++ (if fst (glsl_compile GL_FRAGMENT_SHADER (c_str fragmentShader)) then ""
           else diagnostic "fragment"
                  (snd (glsl_compile GL_FRAGMENT_SHADER (c_str fragmentShader)))))%string /\
    fs = (if fst (glsl_compile GL_FRAGMENT_SHADER (c_str fragmentShader))
          then id2 else 0) /\
    calls w'
    = (calls w
       ++ [CallCreateProgram (fst (create_program (gl w)));
           CallCreateShader GL_VERTEX_SHADER id1;
           CallShaderSource id1 (c_str vertexShader);
           CallCompileShader id1;
           CallGetShaderiv id1 GL_COMPILE_STATUS;
           CallGetShaderiv id1 GL_INFO_LOG_LENGTH;
           CallGetShaderInfoLog id1
             (Z.of_nat (String.length
                          (snd (glsl_compile GL_VERTEX_SHADER (c_str vertexShader)))) + 1);
           CallDeleteShader id1]
       ++ compile_calls glsl_compile GL_FRAGMENT_SHADER fragmentShader id2
       ++ [CallAttachShader (fst (create_program (gl w))) 0;
           CallAttachShader (fst (create_program (gl w))) fs;
           CallLinkProgram (fst (create_program (gl w)));
           CallValidateProgram (fst (create_program (gl w)));
           CallDeleteShader 0;
           CallDeleteShader fs])%list /\
    (fresh (gl w) < 2^32 ->
     fst (create_program (gl w)) = fresh (gl w) /\
     programs (gl w) !! fresh (gl w) = None /\
     is_Some (programs (gl w') !! fresh (gl w))).
Proof.
  intros Hfail Hlog Hfrag Hlive.
  pose proof (reportable_logged glsl_compile GL_VERTEX_SHADER vertexShader Hlog)
    as Hvert.
  split.
  - rewrite CompileShader_compiled by exact Hvert.
    pose proof (compiled_handle glsl_compile GL_VERTEX_SHADER vertexShader w) as Hh.
    pose proof (compiled_cout glsl_compile GL_VERTEX_SHADER vertexShader w) as Hc.
    pose proof (compiled_calls glsl_compile GL_VERTEX_SHADER vertexShader w)
      as Hcalls.
    assert (Hfree : forall name,
               shaders (gl (snd (compiled glsl_compile GL_VERTEX_SHADER
                                          vertexShader w))) !! name
               = shaders (gl w) !! name).
    { intros name. apply compiled_freed; [exact Hfail|].
      apply unattached; [exact Hlive | apply fresh_shader]. }
    destruct (compiled glsl_compile GL_VERTEX_SHADER vertexShader w) as [r w1].
    cbn [fst snd] in *. rewrite Hfail in Hh, Hc. subst r. exists w1.
    split; [reflexivity|]. split; [exact Hc|]. split.
    + rewrite Hcalls. unfold compile_calls. rewrite Hfail. reflexivity.
    + split; [|exact Hfree]. rewrite Hfree. apply fresh_shader.
  - rewrite CreateShader_built by assumption.
    pose proof (built_calls glsl_compile glsl_link vertexShader fragmentShader w)
      as Hcalls.
    pose proof (built_cout glsl_compile glsl_link vertexShader fragmentShader w)
      as Hcout.
    pose proof (built_value glsl_compile glsl_link vertexShader fragmentShader w)
      as Hval.
    pose proof (built_program glsl_compile glsl_link vertexShader fragmentShader w)
      as Hprog.
    destruct (built glsl_compile glsl_link vertexShader fragmentShader w) as [r w'].
    cbn [fst snd] in *. subst r.
    exists w', (first_id w), (second_id glsl_compile vertexShader w),
      (if fst (glsl_compile GL_FRAGMENT_SHADER (c_str fragmentShader))
       then second_id glsl_compile vertexShader w else 0).
    split; [reflexivity|]. split.
    + rewrite Hcout, Hfail. reflexivity.
    + split; [reflexivity|]. split.
      * rewrite Hcalls. unfold build_calls, compile_calls at 1.
        rewrite Hfail. reflexivity.
      * intros Hroom. split; [now apply program_created_handle|].
        split; [apply fresh_program|].
        destruct (Hprog Hroom) as (p & Hp & _). eauto.
Qed.

Lemma CreateShader_after_vertex_failure_witness :
  (exists w1,
      CompileShader picky_compile GL_VERTEX_SHADER "bad" used_world = Ok (0, w1) /\
      cout w1
      = ("ready" ++ "Failed to compile shader" ++ "vertex" ++ nl
         ++ "0:1: syntax error" ++ nl)%string /\
      calls w1
      = ([]
         ++ [CallCreateShader GL_VERTEX_SHADER 6;
             CallShaderSource 6 "bad";
             CallCompileShader 6;
             CallGetShaderiv 6 GL_COMPILE_STATUS;
             CallGetShaderiv 6 GL_INFO_LOG_LENGTH;
             CallGetShaderInfoLog 6 18;
             CallDeleteShader 6])%list /\
      shaders (gl w1) !! 6 = None /\
      forall name, shaders (gl w1) !! name = shaders used_context !! name) /\
  exists w' id1 id2 fs,
    CreateShader picky_compile two_stage_link "bad" "void main() {}" used_world
    = Ok (int_of_unsigned 6, w') /\
    cout w'
    = ("ready" ++ ("Failed to compile shader" ++ "vertex" ++ nl
                   ++ "0:1: syntax error" ++ nl) ++ "")%string /\
    fs = id2 /\
    calls w'
    = ([]
       ++ [CallCreateProgram 6;
           CallCreateShader GL_VERTEX_SHADER id1;
           CallShaderSource id1 "bad";
           CallCompileShader id1;
           CallGetShaderiv id1 GL_COMPILE_STATUS;
           CallGetShaderiv id1 GL_INFO_LOG_LENGTH;
           CallGetShaderInfoLog id1 18;
           CallDeleteShader id1]
       ++ compile_calls picky_compile GL_FRAGMENT_SHADER "void main() {}" id2
       ++ [CallAttachShader 6 0;
           CallAttachShader 6 fs;
           CallLinkProgram 6;
           CallValidateProgram 6;
           CallDeleteShader 0;
           CallDeleteShader fs])%list /\
    (6 < 2^32 ->
     6 = 6 /\
     programs used_context !! 6 = None /\
     is_Some (programs (gl w') !! 6)).
Proof.
  refine (CreateShader_after_vertex_failure picky_compile two_stage_link
            "bad" "void main() {}" used_world eq_refl _ eq_refl eq_refl).
  discriminate.
Defined.

(** *** The link status *)



(** *** What the caller receives *)




(** *** The stage objects *)




End BuilderSpec.


(** ** More on the splitter *)

Module SplitterMore.
Import Terms Str Stream Splitter StrFacts SplitterFacts SplitterSpec.
Import Samples Files MoreSamples.

(** *** Any number of sections *)

Lemma run_lines_sections (secs : list section) (rest : list string)
      (type : ShaderType) (v f : string) :
  forallb well_formed secs = true ->
  run_lines (file_lines secs ++ rest) type [v; f]
  = run_lines rest (last_stage type secs)
      [(v ++ unlines (stage_lines true secs))%string;
       (f ++ unlines (stage_lines false secs))%string].
Proof.
  revert type v f. induction secs as [|s secs IH]; intros type v f Hwf.
  - cbn [file_lines stage_lines last_stage unlines app]. now rewrite !append_nil_r.
  - cbn [forallb] in Hwf. apply andb_prop in Hwf as [Hs Hwf].
    unfold well_formed in Hs. apply andb_prop in Hs as [Hdir Hlines].
    rewrite forallb_forall in Hlines.
    assert (Hcontent : Forall (fun l => content_line l = true) (sec_lines s))
      by (apply Forall_forall; intros l Hl; apply Hlines, list_elem_of_In, Hl).
    cbn [file_lines stage_lines last_stage]. rewrite <- !List.app_assoc.
    cbn [app run_lines]. destruct (sec_vertex s); cbn [Bool.eqb].
    + rewrite (body_vertex_directive _ _ _ Hdir).
      rewrite (run_lines_vertex _ _ _ _ Hcontent), (IH _ _ _ Hwf).
      cbn [app]. now rewrite unlines_app, append_assoc.
    + rewrite (body_fragment_directive _ _ _ Hdir).
      rewrite (run_lines_fragment _ _ _ _ Hcontent), (IH _ _ _ Hwf).
      cbn [app]. now rewrite unlines_app, append_assoc.
Qed.

Lemma file_lines_are_lines (secs : list section) :
  forallb well_formed secs = true ->
  Forall (fun l => is_line l = true) (file_lines secs).
Proof.
  induction secs as [|s secs IH]; intros Hwf; [constructor|].
  cbn [forallb] in Hwf. apply andb_prop in Hwf as [Hs Hwf].
  unfold well_formed in Hs. apply andb_prop in Hs as [Hdir Hlines].
  rewrite forallb_forall in Hlines. cbn [file_lines].
  apply Forall_app. split; [|now apply IH]. constructor.
  - apply directive_is_line. destruct (sec_vertex s).
    + unfold vertex_directive in Hdir. now apply andb_prop in Hdir as [Hdir _].
    + unfold fragment_directive in Hdir. apply andb_prop in Hdir as [Hdir _].
      now apply andb_prop in Hdir as [Hdir _].
  - apply Forall_forall. intros l Hl.
    apply content_is_line, Hlines, list_elem_of_In, Hl.
Qed.

(** X1. A file made of any number of sections, each a vertex or fragment
    directive followed by content lines, is split into the content lines
    of all its vertex sections and those of all its fragment sections,
    each in file order: sections of one stage add up. *)
Theorem ParseShader_sections
    (fs : string -> option string) (filepath txt : string) (secs : list section) :
  fs filepath = Some txt ->
  forallb well_formed secs = true ->
  file_of_lines (file_lines secs) txt ->
  ParseShader fs filepath
  = Ok {| VertexSource := unlines (stage_lines true secs);
          FragmentSource := unlines (stage_lines false secs) |}.
Proof.
  intros Hfs Hwf Hfile.
  rewrite (ParseShader_lines fs filepath txt _ Hfs (file_lines_are_lines secs Hwf) Hfile).
  rewrite <- (List.app_nil_r (file_lines secs)).
  rewrite (run_lines_sections secs [] NONE "" "" Hwf). reflexivity.
Qed.

Lemma ParseShader_sections_witness :
  ParseShader (one_file (unlines (file_lines split_sections))) "default.shader"
  = Ok {| VertexSource := unlines ["in vec4 position;";
                                   "void main() { gl_Position = position; }"];
          FragmentSource := unlines ["out vec4 color;";
                                     "void main() { color = vec4(1.0); }"] |}.
Proof.
  apply (ParseShader_sections (one_file (unlines (file_lines split_sections)))
           "default.shader" (unlines (file_lines split_sections)) split_sections).
  - reflexivity.
  - reflexivity.
  - left. reflexivity.
Defined.

(** *** Files that cannot be opened *)

(** X2. When the file cannot be opened, [ParseShader] reports nothing:
    it returns two empty texts, as it does for an empty file. *)
Theorem ParseShader_unopened (fs : string -> option string) (filepath : string) :
  fs filepath = None ->
  ParseShader fs filepath
  = Ok {| VertexSource := EmptyString; FragmentSource := EmptyString |} /\
  ParseShader fs filepath = ParseShader (fun _ => Some EmptyString) filepath.
Proof.
  intros Hfs. unfold ParseShader, open. rewrite Hfs.
  rewrite while_getline_end, while_getline_step. split; reflexivity.
Qed.

Lemma ParseShader_unopened_witness :
  ParseShader (one_file basic_shader) "missing.shader"
  = Ok {| VertexSource := EmptyString; FragmentSource := EmptyString |} /\
  ParseShader (one_file basic_shader) "missing.shader"
  = ParseShader (fun _ => Some EmptyString) "missing.shader".
Proof.
  apply (ParseShader_unopened (one_file basic_shader) "missing.shader").
  reflexivity.
Defined.

(** *** The last line *)

(** Every text is a sequence of newline-ended lines followed by a rest
    without newline. *)
Lemma text_lines (txt : string) :
  exists init final,
    Forall (fun l => is_line l = true) init /\ is_line final = true /\
    txt = (unlines init ++ final)%string.
Proof.
  induction txt as [|c txt (init & final & Hinit & Hfinal & ->)].
  - exists [], EmptyString. repeat split; constructor.
  - destruct (Ascii.eqb c newline) eqn:Hc.
    + apply Ascii.eqb_eq in Hc as ->.
      exists (EmptyString :: init), final. split; [|split].
      * constructor; [reflexivity | exact Hinit].
      * exact Hfinal.
      * reflexivity.
    + destruct init as [|l init].
      * exists [], (String c final). split; [constructor|]. split; [|reflexivity].
        unfold is_line in *. cbn [free_of]. now rewrite Hc, Hfinal.
      * exists (String c l :: init), final. split; [|split].
        -- apply Forall_cons in Hinit as [Hl Hinit]. constructor; [|exact Hinit].
           unfold is_line in *. cbn [free_of]. now rewrite Hc, Hl.
        -- exact Hfinal.
        -- reflexivity.
Qed.

Lemma is_line_app (a b : string) :
  is_line a = true -> is_line b = true -> is_line (a ++ b) = true.
Proof.
  unfold is_line. intros Ha Hb. induction a as [|c a IH]; [exact Hb|].
  rewrite append_cons. cbn [free_of] in *. apply andb_prop in Ha as [Hc Ha].
  now rewrite Hc, (IH Ha).
Qed.

(** X3. A newline after the last line is optional: a file whose last
    character is not a newline is split like the same file with a
    newline added at its end. *)
Theorem ParseShader_final_newline
    (fs fs' : string -> option string) (filepath txt : string) (c : ascii) :
  c <> newline ->
  fs filepath = Some (txt ++ String c "")%string ->
  fs' filepath = Some (txt ++ String c "" ++ nl)%string ->
  ParseShader fs filepath = ParseShader fs' filepath.
Proof.
  intros Hc Hfs Hfs'.
  destruct (text_lines txt) as (init & final & Hinit & Hfinal & ->).
  assert (Hlast : is_line (final ++ String c "") = true).
  { apply is_line_app; [exact Hfinal|]. unfold is_line. cbn [free_of].
    apply Ascii.eqb_neq in Hc. now rewrite Hc. }
  assert (Hall : Forall (fun l => is_line l = true) (init ++ [(final ++ String c "")%string])%list).
  { apply Forall_app. split; [exact Hinit|]. now constructor. }
  rewrite (ParseShader_lines fs filepath _ (init ++ [(final ++ String c "")%string])%list Hfs Hall).
  - rewrite (ParseShader_lines fs' filepath _ (init ++ [(final ++ String c "")%string])%list
               Hfs' Hall); [reflexivity|].
    left. rewrite unlines_app. cbn [unlines]. now rewrite !append_assoc, append_nil_r.
  - right. exists init, (final ++ String c "")%string. split; [reflexivity|].
    split; [|now rewrite append_assoc].
    destruct final; discriminate.
Qed.

Lemma ParseShader_final_newline_witness :
  ParseShader (one_file ("#shader vertex" ++ nl ++ "void main() {" ++ "}"))
              "default.shader"
  = ParseShader (one_file ("#shader vertex" ++ nl ++ "void main() {" ++ "}" ++ nl))
                "default.shader".
Proof.
  apply (ParseShader_final_newline _ _ "default.shader"
           ("#shader vertex" ++ nl ++ "void main() {") "}"%char).
  - discriminate.
  - reflexivity.
  - reflexivity.
Defined.

(** *** Which files are accepted *)

Lemma run_lines_selected (ls : list string) (type : ShaderType) (v f : string) :
  type <> NONE ->
  exists type' v' f',
    run_lines ls type [v; f] = Ok (type', [v'; f']) /\ type' <> NONE.
Proof.
  revert type v f. induction ls as [|l ls IH]; intros type v f Htype.
  - cbn [run_lines]. eauto.
  - cbn [run_lines]. unfold body.
    destruct (found l "#shader").
    + destruct (found l "vertex"); [apply IH; discriminate|].
      destruct (found l "fragment"); [apply IH; discriminate | apply IH; exact Htype].
    + destruct type; [contradiction| |].
      * rewrite ss_put_vertex. cbn [bind_result]. apply IH. discriminate.
      * rewrite ss_put_fragment. cbn [bind_result]. apply IH. discriminate.
Qed.

Lemma run_lines_outcome (ls : list string) (v f : string) :
  if content_comes_first ls
  then run_lines ls NONE [v; f] = Undefined (OutOfBounds (-1) 2)
  else exists type' v' f', run_lines ls NONE [v; f] = Ok (type', [v'; f']).
Proof.
  induction ls as [|l ls IH]; cbn [content_comes_first run_lines]; [eauto|].
  unfold body. destruct (found l "#shader").
  - destruct (found l "vertex"); cbn [orb].
    + destruct (run_lines_selected ls VERTEX v f) as (t & v' & f' & H & _);
        [discriminate | eauto].
    + destruct (found l "fragment"); [|exact IH].
      destruct (run_lines_selected ls FRAGMENT v f) as (t & v' & f' & H & _);
        [discriminate | eauto].
  - reflexivity.
Qed.

(** X4. A file is rejected exactly when a content line comes before the
    first directive that names a stage: [ParseShader] then indexes its
    two buffers at -1.  On every other file it returns a result; past
    the first such directive no line can make it fail. *)
Theorem ParseShader_outcome
    (fs : string -> option string) (filepath txt : string) (ls : list string) :
  fs filepath = Some txt ->
  Forall (fun l => is_line l = true) ls ->
  file_of_lines ls txt ->
  if content_comes_first ls
  then ParseShader fs filepath = Undefined (OutOfBounds (-1) 2)
  else exists src, ParseShader fs filepath = Ok src.
Proof.
  intros Hfs Hls Hfile.
  rewrite (ParseShader_lines fs filepath txt ls Hfs Hls Hfile).
  pose proof (run_lines_outcome ls "" "") as H.
  destruct (content_comes_first ls).
  - now rewrite H.
  - destruct H as (t & v & f & ->). cbn [bind_result]. eauto.
Qed.

Lemma ParseShader_outcome_witness :
  ParseShader (one_file headed_shader) "default.shader"
  = Undefined (OutOfBounds (-1) 2)
  /\ exists src, ParseShader (one_file (unlines ["#shader"; "#shader fragment"; "x"]))
                              "default.shader" = Ok src.
Proof.
  split.
  - apply (ParseShader_outcome (one_file headed_shader) "default.shader"
             headed_shader ["// shaders of the quad"; "#shader vertex"; "void main() {}"]).
    + reflexivity.
    + repeat constructor.
    + left. reflexivity.
  - apply (ParseShader_outcome _ "default.shader"
             (unlines ["#shader"; "#shader fragment"; "x"])
             ["#shader"; "#shader fragment"; "x"]).
    + reflexivity.
    + repeat constructor.
    + left. reflexivity.
Defined.

(** *** Nothing lost, nothing added *)

Lemma content_lines_free (ls : list string) :
  Forall (fun l => found l "#shader" = false) (content_lines ls).
Proof.
  induction ls as [|l ls IH]; [constructor|]. cbn [content_lines].
  destruct (found l "#shader") eqn:E; [exact IH | now constructor].
Qed.

Lemma content_lines_sublist (ls : list string) : sublist (content_lines ls) ls.
Proof.
  induction ls as [|l ls IH]; [constructor|]. cbn [content_lines].
  destruct (found l "#shader"); [now apply sublist_cons | now apply sublist_skip].
Qed.

Lemma content_lines_length (ls : list string) :
  length (content_lines ls) = content_count ls.
Proof.
  induction ls as [|l ls IH]; [reflexivity|]. cbn [content_lines content_count].
  destruct (found l "#shader"); cbn [length]; lia.
Qed.

Lemma run_lines_partition (ls : list string) :
  forall (type type' : ShaderType) (v f : string) (ss' : list string),
    run_lines ls type [v; f] = Ok (type', ss') ->
    exists mask,
      length mask = length (content_lines ls) /\
      ss' = [(v ++ unlines (pick true mask (content_lines ls)))%string;
             (f ++ unlines (pick false mask (content_lines ls)))%string].
Proof.
  induction ls as [|l ls IH]; intros type type' v f ss' Hrun.
  - cbn [run_lines] in Hrun. injection Hrun as _ <-.
    exists []. cbn [content_lines pick unlines]. now rewrite !append_nil_r.
  - cbn [run_lines content_lines] in *. unfold body in Hrun.
    destruct (found l "#shader") eqn:Hmarker.
    + assert (Hrest : exists t, run_lines ls t [v; f] = Ok (type', ss')).
      { destruct (found l "vertex"); [eauto|].
        destruct (found l "fragment"); eauto. }
      destruct Hrest as (t & Hrest). exact (IH _ _ _ _ _ Hrest).
    + destruct type.
      * discriminate.
      * rewrite ss_put_vertex in Hrun. cbn [bind_result] in Hrun.
        destruct (IH _ _ _ _ _ Hrun) as (mask & Hlen & ->).
        exists (true :: mask). split; [cbn [length]; lia|].
        cbn [pick Bool.eqb unlines]. now rewrite !append_assoc.
      * rewrite ss_put_fragment in Hrun. cbn [bind_result] in Hrun.
        destruct (IH _ _ _ _ _ Hrun) as (mask & Hlen & ->).
        exists (false :: mask). split; [cbn [length]; lia|].
        cbn [pick Bool.eqb unlines]. now rewrite !append_assoc.
Qed.

(** X5. When [ParseShader] returns a result, no line is lost, added,
    doubled or moved: the lines of the file without the marker, taken
    in file order, are dealt out between the two texts, each line to
    exactly one of them, and each text is its lines in that order, a
    newline after each. *)
Theorem ParseShader_conserves_lines
    (fs : string -> option string) (filepath txt : string) (ls : list string)
    (src : ShaderProgramSource) :
  fs filepath = Some txt ->
  Forall (fun l => is_line l = true) ls ->
  file_of_lines ls txt ->
  ParseShader fs filepath = Ok src ->
  (exists mask,
      length mask = length (content_lines ls) /\
      VertexSource src = unlines (pick true mask (content_lines ls)) /\
      FragmentSource src = unlines (pick false mask (content_lines ls))) /\
  sublist (content_lines ls) ls /\
  Forall (fun l => found l "#shader" = false) (content_lines ls) /\
  length (content_lines ls) = content_count ls.
Proof.
  intros Hfs Hls Hfile.
  rewrite (ParseShader_lines fs filepath txt ls Hfs Hls Hfile).
  destruct (run_lines ls NONE [""; ""]) as [[type' ss']|fault] eqn:Hrun;
    [|discriminate].
  destruct (run_lines_partition ls _ _ _ _ _ Hrun) as (mask & Hlen & ->).
  cbn [bind_result]. intros [= <-].
  split; [|split; [apply content_lines_sublist|
                   split; [apply content_lines_free | apply content_lines_length]]].
  exists mask. cbn [VertexSource FragmentSource ss_str].
  split; [exact Hlen|]. split; reflexivity.
Qed.

Lemma ParseShader_conserves_lines_witness :
  (exists mask,
      length mask = 4%nat /\
      unlines ["in vec4 position;"; "void main() { gl_Position = position; }"]
      = unlines (pick true mask
                   ["in vec4 position;"; "out vec4 color;";
                    "void main() { color = vec4(1.0); }";
                    "void main() { gl_Position = position; }"]) /\
      unlines ["out vec4 color;"; "void main() { color = vec4(1.0); }"]
      = unlines (pick false mask
                   ["in vec4 position;"; "out vec4 color;";
                    "void main() { color = vec4(1.0); }";
                    "void main() { gl_Position = position; }"])) /\
  sublist ["in vec4 position;"; "out vec4 color;";
           "void main() { color = vec4(1.0); }";
           "void main() { gl_Position = position; }"]
          (file_lines split_sections) /\
  Forall (fun l => found l "#shader" = false)
         ["in vec4 position;"; "out vec4 color;";
          "void main() { color = vec4(1.0); }";
          "void main() { gl_Position = position; }"] /\
  4%nat = 4%nat.
Proof.
  apply (ParseShader_conserves_lines
           (one_file (unlines (file_lines split_sections))) "default.shader"
           (unlines (file_lines split_sections)) (file_lines split_sections)
           {| VertexSource := unlines ["in vec4 position;";
                                       "void main() { gl_Position = position; }"];
              FragmentSource := unlines ["out vec4 color;";
                                         "void main() { color = vec4(1.0); }"] |}).
  - reflexivity.
  - repeat constructor.
  - left. reflexivity.
  - reflexivity.
Defined.

End SplitterMore.


(** ** More on the program builder *)

Module BuilderMore.
Import Terms Str StrFacts GL GLFacts Builder BuilderFacts Samples MoreSamples.

(** *** A stage that compiles *)

(** X6. When the text compiles, [CompileShader] returns the name of the
    shader object it created, which is not 0 and was not in use; it
    writes nothing to [std::cout], asks neither for the log nor for a
    deletion, and leaves the object compiled, holding the text up to its
    first NUL. *)
Theorem CompileShader_success
    (glsl_compile : Z -> string -> bool * string)
    (type : Z) (source : string) (w : world) :
  fst (glsl_compile type (c_str source)) = true ->
  exists w',
    CompileShader glsl_compile type source w = Ok (fresh (gl w), w') /\
    fresh (gl w) <> 0 /\
    shaders (gl w) !! fresh (gl w) = None /\
    cout w' = cout w /\
    calls w' = (calls w ++ [CallCreateShader type (fresh (gl w));
                            CallShaderSource (fresh (gl w)) (c_str source);
                            CallCompileShader (fresh (gl w));
                            CallGetShaderiv (fresh (gl w)) GL_COMPILE_STATUS])%list /\
    shaders (gl w') !! fresh (gl w)
    = Some {| sh_type := type; sh_source := c_str source; sh_compiled := true;
              sh_log := Some (snd (glsl_compile type (c_str source)));
              sh_flagged := false |} /\
    programs (gl w') = programs (gl w).
Proof.
  intros Hok. rewrite CompileShader_compiled by now apply reportable_compiles.
  pose proof (compiled_handle glsl_compile type source w) as Hh.
  pose proof (compiled_cout glsl_compile type source w) as Hc.
  pose proof (compiled_calls glsl_compile type source w) as Hcalls.
  pose proof (compiled_gl glsl_compile type source w) as Hgl.
  destruct (compiled glsl_compile type source w) as [r w'].
  cbn [fst snd] in *. rewrite Hok in Hh, Hc, Hgl. subst r. exists w'.
  pose proof (fresh_pos (gl w)) as Hpos.
  split; [reflexivity|]. split; [lia|]. split; [apply fresh_shader|].
  split; [exact Hc|]. split.
  - rewrite Hcalls. unfold compile_calls. rewrite Hok. reflexivity.
  - rewrite Hgl. split; [|reflexivity].
    rewrite compiled_context_shader, Hok. reflexivity.
Qed.

Lemma CompileShader_success_witness :
  exists w',
    CompileShader lenient_compile GL_VERTEX_SHADER "void main() {}" used_world
    = Ok (6, w') /\
    6 <> 0 /\
    shaders used_context !! 6 = None /\
    cout w' = "ready" /\
    calls w' = ([] ++ [CallCreateShader GL_VERTEX_SHADER 6;
                       CallShaderSource 6 "void main() {}";
                       CallCompileShader 6;
                       CallGetShaderiv 6 GL_COMPILE_STATUS])%list /\
    shaders (gl w') !! 6
    = Some {| sh_type := GL_VERTEX_SHADER; sh_source := "void main() {}";
              sh_compiled := true;
              sh_log := Some "warning: no version directive";
              sh_flagged := false |} /\
    programs (gl w') = programs used_context.
Proof.
  exact (CompileShader_success lenient_compile GL_VERTEX_SHADER "void main() {}"
           used_world eq_refl).
Defined.

(** *** A stage that does not compile *)

(** X14. When the compilation of a stage fails and the compiler leaves
    a log, [CompileShader] writes to [std::cout] the words
    ["Failed to compile shader"] and the name of the stage, [vertex] or
    [fragment], and after them, on a line of its own, the whole log; it
    asks for the log in a buffer of the length of the log and its
    terminator, deletes the shader object, and returns 0 having asked
    for one compilation only.  A build compiles each of its two stages
    once, whether or not a compilation fails. *)
Theorem CompileShader_reports_log
    (glsl_compile : Z -> string -> bool * string)
    (glsl_link : list (Z * string) -> bool)
    (type : Z) (source vertexShader fragmentShader : string) (w : world) :
  fst (glsl_compile type (c_str source)) = false ->
  snd (glsl_compile type (c_str source)) <> EmptyString ->
  (exists w' made,
      CompileShader glsl_compile type source w = Ok (0, w') /\
      cout w' = (cout w ++ "Failed to compile shader" ++ stage_name type ++ nl
                 ++ snd (glsl_compile type (c_str source)) ++ nl)%string /\
      calls w' = (calls w ++ made)%list /\
      filter (fun c => is_compile_call c = true) made
      = [CallCompileShader (fresh (gl w))] /\
      In (CallGetShaderInfoLog (fresh (gl w))
            (Z.of_nat (String.length (snd (glsl_compile type (c_str source)))) + 1))
         made /\
      In (CallDeleteShader (fresh (gl w))) made /\
      programs (gl w') = programs (gl w) /\
      (attachments_live (gl w) = true ->
       forall name, shaders (gl w') !! name = shaders (gl w) !! name)) /\
  (stage_name GL_VERTEX_SHADER = "vertex" /\
   stage_name GL_FRAGMENT_SHADER = "fragment") /\
  (reportable glsl_compile GL_VERTEX_SHADER vertexShader = true ->
   reportable glsl_compile GL_FRAGMENT_SHADER fragmentShader = true ->
   exists r w' made id1 id2,
      CreateShader glsl_compile glsl_link vertexShader fragmentShader w
      = Ok (r, w') /\
      calls w' = (calls w ++ made)%list /\
      filter (fun c => creates_stage GL_VERTEX_SHADER c = true) made
      = [CallCreateShader GL_VERTEX_SHADER id1] /\
      filter (fun c => creates_stage GL_FRAGMENT_SHADER c = true) made
      = [CallCreateShader GL_FRAGMENT_SHADER id2] /\
      filter (fun c => is_compile_call c = true) made
      = [CallCompileShader id1; CallCompileShader id2]).
Proof.
  intros Hfail Hlog. split; [|split; [split; reflexivity|]].
  - rewrite CompileShader_compiled by now apply reportable_logged.
    pose proof (compiled_handle glsl_compile type source w) as Hh.
    pose proof (compiled_cout glsl_compile type source w) as Hc.
    pose proof (compiled_calls glsl_compile type source w) as Hcalls.
    pose proof (compiled_programs glsl_compile type source w) as Hprog.
    pose proof (fun name => compiled_freed glsl_compile type source w name Hfail)
      as Hfree.
    destruct (compiled glsl_compile type source w) as [r w'].
    cbn [fst snd] in *. rewrite Hfail in Hh, Hc. subst r.
    exists w', (compile_calls glsl_compile type source (fresh (gl w))).
    split; [reflexivity|]. split; [exact Hc|]. split; [exact Hcalls|].
    split; [apply filter_compile_calls|].
    unfold compile_calls. rewrite Hfail.
    split; [cbn; tauto|]. split; [cbn; tauto|]. split; [exact Hprog|].
    intros Hlive name. apply Hfree.
    apply unattached; [exact Hlive | apply fresh_shader].
  - intros Hv Hf. rewrite CreateShader_built by assumption.
    pose proof (built_calls glsl_compile glsl_link vertexShader fragmentShader w)
      as Hcalls.
    destruct (built glsl_compile glsl_link vertexShader fragmentShader w)
      as [r w'].
    cbn [snd] in Hcalls.
    exists r, w', (build_calls glsl_compile vertexShader fragmentShader
                               (fst (create_program (gl w))) (first_id w)
                               (second_id glsl_compile vertexShader w)),
      (first_id w), (second_id glsl_compile vertexShader w).
    split; [reflexivity|]. split; [exact Hcalls|].
    unfold build_calls, link_calls.
    rewrite !filter_cons_False by (cbn; congruence).
    rewrite !filter_app, !filter_creates_stage,
      !filter_compile_calls.
    repeat split; reflexivity.
Qed.

Lemma CompileShader_reports_log_witness :
  (exists w' made,
      CompileShader picky_compile GL_FRAGMENT_SHADER "bad" fresh_world = Ok (0, w') /\
      cout w' = ("" ++ "Failed to compile shader" ++ "fragment" ++ nl
                 ++ "0:1: syntax error" ++ nl)%string /\
      calls w' = ([] ++ made)%list /\
      filter (fun c => is_compile_call c = true) made = [CallCompileShader 1] /\
      In (CallGetShaderInfoLog 1 18) made /\
      In (CallDeleteShader 1) made /\
      programs (gl w') = programs empty_context /\
      (true = true ->
       forall name, shaders (gl w') !! name = shaders empty_context !! name)) /\
  (stage_name GL_VERTEX_SHADER = "vertex" /\
   stage_name GL_FRAGMENT_SHADER = "fragment") /\
  (true = true -> true = true ->
   exists r w' made id1 id2,
      CreateShader picky_compile two_stage_link "void main() {}" "bad" fresh_world
      = Ok (r, w') /\
      calls w' = ([] ++ made)%list /\
      filter (fun c => creates_stage GL_VERTEX_SHADER c = true) made
      = [CallCreateShader GL_VERTEX_SHADER id1] /\
      filter (fun c => creates_stage GL_FRAGMENT_SHADER c = true) made
      = [CallCreateShader GL_FRAGMENT_SHADER id2] /\
      filter (fun c => is_compile_call c = true) made
      = [CallCompileShader id1; CallCompileShader id2]).
Proof.
  refine (CompileShader_reports_log picky_compile two_stage_link
            GL_FRAGMENT_SHADER "bad" "void main() {}" "bad" fresh_world eq_refl _).
  discriminate.
Defined.

(** *** Builds with and without outcome *)

(** X15. [CompileShader] has an outcome exactly when the stage compiles
    or the compiler leaves a log: a failure without log makes it print
    the buffer of length 0 that nothing was stored in.  [CreateShader]
    has an outcome exactly when this holds of both stages. *)
Theorem CreateShader_outcome
    (glsl_compile : Z -> string -> bool * string)
    (glsl_link : list (Z * string) -> bool)
    (type : Z) (source vertexShader fragmentShader : string) (w : world) :
  (reportable glsl_compile type source = true <->
   fst (glsl_compile type (c_str source)) = true \/
   snd (glsl_compile type (c_str source)) <> EmptyString) /\
  (reportable glsl_compile type source = true ->
   exists r w', CompileShader glsl_compile type source w = Ok (r, w')) /\
  (fst (glsl_compile type (c_str source)) = false ->
   snd (glsl_compile type (c_str source)) = EmptyString ->
   CompileShader glsl_compile type source w = Undefined Uninitialised) /\
  (reportable glsl_compile GL_VERTEX_SHADER vertexShader = true ->
   reportable glsl_compile GL_FRAGMENT_SHADER fragmentShader = true ->
   exists r w',
     CreateShader glsl_compile glsl_link vertexShader fragmentShader w = Ok (r, w')) /\
  (reportable glsl_compile GL_VERTEX_SHADER vertexShader = false \/
   reportable glsl_compile GL_FRAGMENT_SHADER fragmentShader = false ->
   CreateShader glsl_compile glsl_link vertexShader fragmentShader w
   = Undefined Uninitialised).
Proof.
  split; [|split; [|split; [|split]]].
  - split.
    + intros H. apply reportable_cases in H. tauto.
    + intros [H|H]; [now apply reportable_compiles | now apply reportable_logged].
  - intros H. rewrite CompileShader_compiled by exact H.
    destruct (compiled glsl_compile type source w) as [r w']. eauto.
  - intros Hfail Hlog. apply CompileShader_unreported.
    unfold reportable. now rewrite Hfail, Hlog.
  - intros Hv Hf. rewrite CreateShader_built by assumption.
    destruct (built glsl_compile glsl_link vertexShader fragmentShader w) as [r w'].
    eauto.
  - apply CreateShader_unreported.
Qed.

Lemma CreateShader_outcome_witness :
  (exists r w', CompileShader picky_compile GL_VERTEX_SHADER "bad" fresh_world
                = Ok (r, w')) /\
  CompileShader silent_compile GL_VERTEX_SHADER "bad" fresh_world
  = Undefined Uninitialised /\
  (exists r w', CreateShader picky_compile two_stage_link "bad" "bad" fresh_world
                = Ok (r, w')) /\
  CreateShader silent_compile two_stage_link "void main() {}" "bad" fresh_world
  = Undefined Uninitialised.
Proof.
  destruct (CreateShader_outcome picky_compile two_stage_link GL_VERTEX_SHADER
              "bad" "bad" "bad" fresh_world) as (_ & Hstage & _ & Hbuild & _).
  destruct (CreateShader_outcome silent_compile two_stage_link GL_VERTEX_SHADER
              "bad" "void main() {}" "bad" fresh_world)
    as (_ & _ & Hsilent & _ & Hnone).
  split; [exact (Hstage eq_refl)|]. split; [exact (Hsilent eq_refl eq_refl)|].
  split; [exact (Hbuild eq_refl eq_refl)|]. exact (Hnone (or_intror eq_refl)).
Defined.

(** *** What a build prints *)

Lemma append_cancel (a b : string) : (a ++ b)%string = a -> b = EmptyString.
Proof.
  induction a as [|c a IH]; [now rewrite append_nil_l|].
  rewrite append_cons. intros [= H]. now apply IH.
Qed.

(** X7. A build in which each stage compiles or leaves a log appends to
    [std::cout] the report of the vertex stage, if it failed, and after
    it the report of the fragment stage, if it failed; it prints nothing
    exactly when both stages compile. *)
Theorem CreateShader_diagnostics
    (glsl_compile : Z -> string -> bool * string)
    (glsl_link : list (Z * string) -> bool)
    (vertexShader fragmentShader : string) (w : world) :
  reportable glsl_compile GL_VERTEX_SHADER vertexShader = true ->
  reportable glsl_compile GL_FRAGMENT_SHADER fragmentShader = true ->
  exists r w',
    CreateShader glsl_compile glsl_link vertexShader fragmentShader w = Ok (r, w') /\
    cout w'
    = (cout w
       ++ (if fst (glsl_compile GL_VERTEX_SHADER (c_str vertexShader)) then ""
           else "Failed to compile shader" ++ "vertex" ++ nl
                ++ snd (glsl_compile GL_VERTEX_SHADER (c_str vertexShader)) ++ nl)
       ++ (if fst (glsl_compile GL_FRAGMENT_SHADER (c_str fragmentShader)) then ""
           else "Failed to compile shader" ++ "fragment" ++ nl
                ++ snd (glsl_compile GL_FRAGMENT_SHADER (c_str fragmentShader))
                ++ nl))%string /\
    (cout w' = cout w <->
     fst (glsl_compile GL_VERTEX_SHADER (c_str vertexShader)) = true /\
     fst (glsl_compile GL_FRAGMENT_SHADER (c_str fragmentShader)) = true).
Proof.
  intros Hv Hf. rewrite CreateShader_built by assumption.
  pose proof (built_cout glsl_compile glsl_link vertexShader fragmentShader w)
    as Hcout.
  destruct (built glsl_compile glsl_link vertexShader fragmentShader w) as [r w'].
  cbn [snd] in Hcout. exists r, w'. split; [reflexivity|].
  split; [exact Hcout|]. rewrite Hcout. unfold diagnostic. split.
  - intros H. apply append_cancel in H.
    destruct (fst (glsl_compile GL_VERTEX_SHADER (c_str vertexShader)));
      [|discriminate].
    destruct (fst (glsl_compile GL_FRAGMENT_SHADER (c_str fragmentShader)));
      [split; reflexivity | discriminate].
  - intros [-> ->]. now rewrite !append_nil_r.
Qed.

Lemma CreateShader_diagnostics_witness :
  exists r w',
    CreateShader picky_compile two_stage_link "bad" "bad" used_world = Ok (r, w') /\
    cout w'
    = ("ready"
       ++ ("Failed to compile shader" ++ "vertex" ++ nl
           ++ "0:1: syntax error" ++ nl)
       ++ ("Failed to compile shader" ++ "fragment" ++ nl
           ++ "0:1: syntax error" ++ nl))%string /\
    (cout w' = "ready" <-> false = true /\ false = true).
Proof.
  exact (CreateShader_diagnostics picky_compile two_stage_link "bad" "bad"
           used_world eq_refl eq_refl).
Defined.

(** *** Objects that were there before *)

Lemma attach_shader_other ctx (prog name other : Z) :
  other <> prog ->
  programs (attach_shader ctx prog name) !! other = programs ctx !! other.
Proof.
  intros Hne. unfold attach_shader.
  destruct (programs ctx !! prog) as [p|]; [|reflexivity].
  destruct (shaders ctx !! name); [|reflexivity].
  destruct (bool_decide (name ∈ pr_attached p)); [reflexivity|].
  cbn [programs set_programs]. now rewrite lookup_insert_ne.
Qed.

Lemma link_program_other glsl_link ctx (prog other : Z) :
  other <> prog ->
  programs (link_program glsl_link ctx prog) !! other = programs ctx !! other.
Proof.
  intros Hne. unfold link_program.
  destruct (programs ctx !! prog) as [p|]; [|reflexivity].
  cbn [programs set_programs]. now rewrite lookup_insert_ne.
Qed.

Lemma validate_program_other ctx (prog other : Z) :
  other <> prog ->
  programs (validate_program ctx prog) !! other = programs ctx !! other.
Proof.
  intros Hne. unfold validate_program. cbn [programs set_programs].
  now rewrite lookup_alter_ne.
Qed.

Lemma linked_context_other_program glsl_link ctx (prog vs fs other : Z) :
  other <> prog ->
  programs (linked_context glsl_link ctx prog vs fs) !! other
  = programs ctx !! other.
Proof.
  intros Hne. unfold linked_context. rewrite !delete_shader_programs.
  rewrite validate_program_other, link_program_other, !attach_shader_other
    by exact Hne.
  reflexivity.
Qed.

Lemma delete_shader_frame ctx (name other : Z) :
  name = 0 \/ name <> other ->
  shaders (delete_shader ctx name) !! other = shaders ctx !! other.
Proof.
  intros [-> | Hne]; [reflexivity | now apply delete_shader_other].
Qed.

Lemma linked_context_other_shader glsl_link ctx (prog vs fs other : Z) :
  vs = 0 \/ vs <> other -> fs = 0 \/ fs <> other ->
  shaders (linked_context glsl_link ctx prog vs fs) !! other
  = shaders ctx !! other.
Proof.
  intros Hvs Hfs. unfold linked_context.
  rewrite !delete_shader_frame by assumption.
  now rewrite validate_program_shaders, link_program_shaders, !attach_shader_shaders.
Qed.

(** X8. A build in which each stage compiles or leaves a log leaves
    every shader object and every program object that existed before it
    as it was, in a context where 0 names no program. *)
Theorem CreateShader_frame
    (glsl_compile : Z -> string -> bool * string)
    (glsl_link : list (Z * string) -> bool)
    (vertexShader fragmentShader : string) (w : world) :
  reportable glsl_compile GL_VERTEX_SHADER vertexShader = true ->
  reportable glsl_compile GL_FRAGMENT_SHADER fragmentShader = true ->
  programs (gl w) !! 0 = None ->
  exists r w',
    CreateShader glsl_compile glsl_link vertexShader fragmentShader w = Ok (r, w') /\
    (forall name, is_Some (shaders (gl w) !! name) ->
                  shaders (gl w') !! name = shaders (gl w) !! name) /\
    (forall name, is_Some (programs (gl w) !! name) ->
                  programs (gl w') !! name = programs (gl w) !! name).
Proof.
  intros Hv Hf Hpzero. rewrite CreateShader_built by assumption.
  pose proof (built_gl glsl_compile glsl_link vertexShader fragmentShader w) as Hgl.
  destruct (built glsl_compile glsl_link vertexShader fragmentShader w) as [r w'].
  cbn [snd] in Hgl. cbv zeta in Hgl. exists r, w'. split; [reflexivity|].
  rewrite Hgl. unfold first_id, second_id.
  pose proof (program_created_shaders w) as Hs0.
  set (w0 := program_created w) in *.
  set (w1 := snd (compiled glsl_compile GL_VERTEX_SHADER vertexShader w0)).
  set (w2 := snd (compiled glsl_compile GL_FRAGMENT_SHADER fragmentShader w1)).
  split.
  - intros name Hname.
    assert (Hne0 : name <> fresh (gl w0)).
    { intros ->. destruct Hname as [s Hs].
      pose proof (fresh_shader (gl w0)) as Hnone.
      rewrite Hs0 in Hnone. congruence. }
    assert (H1 : shaders (gl w1) !! name = shaders (gl w) !! name)
      by (subst w1; rewrite compiled_other by exact Hne0; now rewrite Hs0).
    assert (Hne1 : name <> fresh (gl w1)).
    { intros ->. rewrite (fresh_shader (gl w1)) in H1. rewrite <- H1 in Hname.
      now destruct Hname. }
    rewrite linked_context_other_shader.
    + subst w2. now rewrite compiled_other.
    + destruct (fst (glsl_compile GL_VERTEX_SHADER (c_str vertexShader)));
        [right; congruence | now left].
    + destruct (fst (glsl_compile GL_FRAGMENT_SHADER (c_str fragmentShader)));
        [right; congruence | now left].
  - intros name Hname.
    assert (Hne : name <> fst (create_program (gl w))).
    { rewrite create_program_handle. destruct (fresh (gl w) <? 2^32).
      - intros ->. rewrite (fresh_program (gl w)) in Hname. now destruct Hname.
      - intros ->. rewrite Hpzero in Hname. now destruct Hname. }
    rewrite linked_context_other_program by exact Hne.
    subst w2 w1 w0. rewrite !compiled_programs.
    cbn [program_created gl]. now apply create_program_other.
Qed.

Lemma CreateShader_frame_witness :
  exists r w',
    CreateShader picky_compile two_stage_link "bad" "void main() {}" used_world
    = Ok (r, w') /\
    shaders (gl w') !! 3 = shaders used_context !! 3 /\
    programs (gl w') !! 5 = programs used_context !! 5.
Proof.
  destruct (CreateShader_frame picky_compile two_stage_link "bad" "void main() {}"
              used_world eq_refl eq_refl eq_refl)
    as (r & w' & Hrun & Hshaders & Hprograms).
  exists r, w'. split; [exact Hrun|]. split.
  - apply Hshaders. vm_compute. eauto.
  - apply Hprograms. vm_compute. eauto.
Defined.

(** *** Shader objects after a build *)

Lemma linked_context_flagged glsl_link ctx (prog id1 id2 : Z) (s1 s2 : shader) :
  programs ctx !! prog
  = Some {| pr_attached := []; pr_linked := false; pr_validated := false |} ->
  shaders ctx !! id1 = Some s1 -> shaders ctx !! id2 = Some s2 ->
  id1 <> id2 -> id1 <> 0 -> id2 <> 0 ->
  shaders (linked_context glsl_link ctx prog id1 id2) !! id1 = Some (flag s1) /\
  shaders (linked_context glsl_link ctx prog id1 id2) !! id2 = Some (flag s2) /\
  exists p, programs (linked_context glsl_link ctx prog id1 id2) !! prog = Some p /\
            pr_attached p = [id1; id2].
Proof.
  intros Hp H1 H2 Hne H10 H20. unfold linked_context.
  set (ctxa := attach_shader ctx prog id1).
  assert (Hpa : programs ctxa !! prog
                = Some {| pr_attached := [id1]; pr_linked := false;
                          pr_validated := false |}).
  { subst ctxa. unfold attach_shader. rewrite Hp, H1. cbn [pr_attached].
    rewrite bool_decide_eq_false_2 by (apply not_elem_of_nil).
    cbn [programs set_programs]. now rewrite lookup_insert_eq. }
  set (ctxb := attach_shader ctxa prog id2).
  assert (Hpb : programs ctxb !! prog
                = Some {| pr_attached := [id1; id2]; pr_linked := false;
                          pr_validated := false |}).
  { subst ctxb. unfold attach_shader. rewrite Hpa.
    replace (shaders ctxa) with (shaders ctx)
      by (symmetry; apply attach_shader_shaders).
    rewrite H2. cbn [pr_attached].
    rewrite bool_decide_eq_false_2
      by (intros Hin; apply list_elem_of_singleton in Hin; congruence).
    cbn [programs set_programs]. now rewrite lookup_insert_eq. }
  set (ctxd := validate_program (link_program glsl_link ctxb prog) prog).
  assert (Hsd : shaders ctxd = shaders ctx).
  { subst ctxd ctxb ctxa.
    now rewrite validate_program_shaders, link_program_shaders, !attach_shader_shaders. }
  assert (Hpd : exists p, programs ctxd !! prog = Some p /\ pr_attached p = [id1; id2]).
  { subst ctxd. unfold validate_program, link_program. rewrite Hpb.
    cbn [programs set_programs]. rewrite lookup_alter_eq, lookup_insert_eq.
    eexists. split; reflexivity. }
  destruct Hpd as (p & Hpd & Hattached).
  rewrite (delete_shader_attached ctxd prog id1 p H10 Hpd)
    by (rewrite Hattached; apply list_elem_of_In; simpl; tauto).
  set (ctxe := set_shaders ctxd _).
  assert (Hpe : programs ctxe !! prog = Some p) by exact Hpd.
  rewrite (delete_shader_attached ctxe prog id2 p H20 Hpe)
    by (rewrite Hattached; apply list_elem_of_In; simpl; tauto).
  subst ctxe. cbn [shaders programs set_shaders]. rewrite Hsd.
  split; [|split].
  - now rewrite lookup_alter_ne, lookup_alter_eq, H1 by congruence.
  - now rewrite lookup_alter_eq, lookup_alter_ne, H2 by congruence.
  - eauto.
Qed.

(** X9. When both stages compile and the program was created, the two
    [glDeleteShader] calls that end the build free nothing: the program
    still has both shader objects attached, and both are still in the
    context, compiled and holding their sources, only flagged for
    deletion. *)
Theorem CreateShader_keeps_attached_shaders
    (glsl_compile : Z -> string -> bool * string)
    (glsl_link : list (Z * string) -> bool)
    (vertexShader fragmentShader : string) (w : world) :
  fst (glsl_compile GL_VERTEX_SHADER (c_str vertexShader)) = true ->
  fst (glsl_compile GL_FRAGMENT_SHADER (c_str fragmentShader)) = true ->
  fresh (gl w) < 2^32 ->
  exists r w' before id1 id2 p,
    CreateShader glsl_compile glsl_link vertexShader fragmentShader w = Ok (r, w') /\
    calls w' = (calls w ++ before
                ++ [CallDeleteShader id1; CallDeleteShader id2])%list /\
    programs (gl w') !! fresh (gl w) = Some p /\
    pr_attached p = [id1; id2] /\
    shaders (gl w') !! id1
    = Some {| sh_type := GL_VERTEX_SHADER; sh_source := c_str vertexShader;
              sh_compiled := true;
              sh_log := Some (snd (glsl_compile GL_VERTEX_SHADER (c_str vertexShader)));
              sh_flagged := true |} /\
    shaders (gl w') !! id2
    = Some {| sh_type := GL_FRAGMENT_SHADER; sh_source := c_str fragmentShader;
              sh_compiled := true;
              sh_log := Some (snd (glsl_compile GL_FRAGMENT_SHADER
                                     (c_str fragmentShader)));
              sh_flagged := true |}.
Proof.
  intros Hv Hf Hroom.
  rewrite CreateShader_built by now apply reportable_compiles.
  pose proof (built_gl glsl_compile glsl_link vertexShader fragmentShader w) as Hgl.
  pose proof (built_calls glsl_compile glsl_link vertexShader fragmentShader w)
    as Hcalls.
  destruct (built glsl_compile glsl_link vertexShader fragmentShader w) as [r w'].
  cbn [snd] in Hgl, Hcalls. cbv zeta in Hgl. rewrite Hv, Hf in Hgl.
  unfold build_calls, link_calls in Hcalls. rewrite Hv, Hf in Hcalls.
  rewrite program_created_handle in Hgl, Hcalls by exact Hroom.
  unfold second_id, first_id in *. rewrite !compiled_gl, Hv, ?Hf in Hgl.
  rewrite !compiled_gl, Hv in Hcalls.
  pose proof (program_created_program w Hroom) as Hp0.
  set (ctx1 := gl (program_created w)) in *.
  set (ctx2 := compiled_context glsl_compile ctx1 GL_VERTEX_SHADER (c_str vertexShader))
    in *.
  set (ctx3 := compiled_context glsl_compile ctx2 GL_FRAGMENT_SHADER
                                (c_str fragmentShader)) in *.
  pose proof (compiled_context_shader glsl_compile ctx1 GL_VERTEX_SHADER
                (c_str vertexShader)) as H1.
  pose proof (compiled_context_shader glsl_compile ctx2 GL_FRAGMENT_SHADER
                (c_str fragmentShader)) as H2.
  fold ctx2 in H1. fold ctx3 in H2. rewrite Hv in H1. rewrite Hf in H2.
  assert (Hne : fresh ctx1 <> fresh ctx2).
  { intros Heq. pose proof (fresh_shader ctx2) as Hnone.
    rewrite <- Heq, H1 in Hnone. discriminate. }
  assert (H1' : shaders ctx3 !! fresh ctx1 = shaders ctx2 !! fresh ctx1)
    by (apply compiled_context_other; exact Hne).
  rewrite H1 in H1'.
  pose proof (fresh_pos ctx1). pose proof (fresh_pos ctx2).
  assert (Hp : programs ctx3 !! fresh (gl w)
               = Some {| pr_attached := []; pr_linked := false;
                         pr_validated := false |}) by exact Hp0.
  assert (H10 : fresh ctx1 <> 0) by lia.
  assert (H20 : fresh ctx2 <> 0) by lia.
  destruct (linked_context_flagged glsl_link ctx3 (fresh (gl w)) (fresh ctx1)
              (fresh ctx2) _ _ Hp H1' H2 Hne H10 H20)
    as (Hs1 & Hs2 & p & Hprog & Hattached).
  exists r, w',
    (CallCreateProgram (fresh (gl w))
     :: compile_calls glsl_compile GL_VERTEX_SHADER vertexShader (fresh ctx1)
     ++ compile_calls glsl_compile GL_FRAGMENT_SHADER fragmentShader (fresh ctx2)
     ++ [CallAttachShader (fresh (gl w)) (fresh ctx1);
         CallAttachShader (fresh (gl w)) (fresh ctx2);
         CallLinkProgram (fresh (gl w)); CallValidateProgram (fresh (gl w))])%list,
    (fresh ctx1), (fresh ctx2), p.
  split; [reflexivity|]. rewrite Hgl. split.
  - rewrite Hcalls. f_equal. cbn [app]. rewrite <- !List.app_assoc. reflexivity.
  - split; [exact Hprog|]. split; [exact Hattached|]. split; assumption.
Qed.

Lemma CreateShader_keeps_attached_shaders_witness :
  exists r w' before id1 id2 p,
    CreateShader lenient_compile failing_link "void main() {}" "void main() {}"
                 fresh_world = Ok (r, w') /\
    calls w' = ([] ++ before ++ [CallDeleteShader id1; CallDeleteShader id2])%list /\
    programs (gl w') !! 1 = Some p /\
    pr_attached p = [id1; id2] /\
    shaders (gl w') !! id1
    = Some {| sh_type := GL_VERTEX_SHADER; sh_source := "void main() {}";
              sh_compiled := true;
              sh_log := Some "warning: no version directive";
              sh_flagged := true |} /\
    shaders (gl w') !! id2
    = Some {| sh_type := GL_FRAGMENT_SHADER; sh_source := "void main() {}";
              sh_compiled := true;
              sh_log := Some "warning: no version directive";
              sh_flagged := true |}.
Proof.
  exact (CreateShader_keeps_attached_shaders lenient_compile failing_link
           "void main() {}" "void main() {}" fresh_world eq_refl eq_refl eq_refl).
Defined.

(** *** Texts with a NUL character *)

Lemma c_str_nul (a b : string) : c_str (a ++ String Ascii.zero b) = c_str a.
Proof.
  induction a as [|c a IH]; [reflexivity|].
  rewrite append_cons. cbn [c_str]. now rewrite IH.
Qed.

(** X10. The driver gets each text up to its first NUL character only:
    whatever follows a NUL in a source changes nothing in what
    [CompileShader] and [CreateShader] do. *)
Theorem CreateShader_ignores_text_after_nul
    (glsl_compile : Z -> string -> bool * string)
    (glsl_link : list (Z * string) -> bool)
    (type : Z) (vertexShader fragmentShader vertexRest fragmentRest : string)
    (w : world) :
  CompileShader glsl_compile type (vertexShader ++ String Ascii.zero vertexRest) w
  = CompileShader glsl_compile type vertexShader w /\
  CreateShader glsl_compile glsl_link
    (vertexShader ++ String Ascii.zero vertexRest)
    (fragmentShader ++ String Ascii.zero fragmentRest) w
  = CreateShader glsl_compile glsl_link vertexShader fragmentShader w.
Proof.
  split.
  - unfold CompileShader. now rewrite c_str_nul.
  - unfold CreateShader, CompileShader. now rewrite !c_str_nul.
Qed.

(** *** The stages of the returned program *)

(** X13. In a build in which each stage compiles or leaves a log, the
    program created has attached exactly the stages that compiled, the
    vertex stage first: for a stage that failed, [CreateShader] hands
    the name 0 to [glAttachShader], which attaches nothing. *)
Theorem CreateShader_attaches_compiled_stages
    (glsl_compile : Z -> string -> bool * string)
    (glsl_link : list (Z * string) -> bool)
    (vertexShader fragmentShader : string) (w : world) :
  shaders (gl w) !! 0 = None ->
  reportable glsl_compile GL_VERTEX_SHADER vertexShader = true ->
  reportable glsl_compile GL_FRAGMENT_SHADER fragmentShader = true ->
  fresh (gl w) < 2^32 ->
  exists r w' made id1 id2 p,
    CreateShader glsl_compile glsl_link vertexShader fragmentShader w = Ok (r, w') /\
    calls w' = (calls w ++ made)%list /\
    In (CallCreateShader GL_VERTEX_SHADER id1) made /\
    In (CallCreateShader GL_FRAGMENT_SHADER id2) made /\
    In (CallAttachShader (fresh (gl w))
          (if fst (glsl_compile GL_VERTEX_SHADER (c_str vertexShader))
           then id1 else 0)) made /\
    In (CallAttachShader (fresh (gl w))
          (if fst (glsl_compile GL_FRAGMENT_SHADER (c_str fragmentShader))
           then id2 else 0)) made /\
    programs (gl w') !! fresh (gl w) = Some p /\
    pr_attached p
    = ((if fst (glsl_compile GL_VERTEX_SHADER (c_str vertexShader))
        then [id1] else [])
       ++ (if fst (glsl_compile GL_FRAGMENT_SHADER (c_str fragmentShader))
           then [id2] else []))%list.
Proof.
  intros Hzero Hrv Hrf Hroom. rewrite CreateShader_built by assumption.
  pose proof (built_gl glsl_compile glsl_link vertexShader fragmentShader w) as Hgl.
  pose proof (built_calls glsl_compile glsl_link vertexShader fragmentShader w)
    as Hcalls.
  destruct (built glsl_compile glsl_link vertexShader fragmentShader w) as [r w'].
  cbn [snd] in Hgl, Hcalls. cbv zeta in Hgl. unfold first_id, second_id in *.
  rewrite program_created_handle in Hgl, Hcalls by exact Hroom.
  pose proof (program_created_program w Hroom) as Hp0.
  pose proof (program_created_shaders w) as Hs0.
  set (w0 := program_created w) in *.
  set (w1 := snd (compiled glsl_compile GL_VERTEX_SHADER vertexShader w0)) in *.
  set (w2 := snd (compiled glsl_compile GL_FRAGMENT_SHADER fragmentShader w1)) in *.
  pose proof (fresh_pos (gl w0)) as Hpos0.
  pose proof (fresh_pos (gl w1)) as Hpos1.
  assert (Hp : programs (gl w2) !! fresh (gl w)
               = Some {| pr_attached := []; pr_linked := false;
                         pr_validated := false |}).
  { subst w2 w1. now rewrite !compiled_programs. }
  assert (Hz : shaders (gl w2) !! 0 = None).
  { subst w2. rewrite compiled_other by lia.
    subst w1. rewrite compiled_other by lia. now rewrite Hs0. }
  assert (H1 : fst (glsl_compile GL_VERTEX_SHADER (c_str vertexShader)) = true ->
               is_Some (shaders (gl w2) !! fresh (gl w0)) /\
               fresh (gl w0) <> fresh (gl w1)).
  { intros Hv.
    destruct (compiled_stage glsl_compile GL_VERTEX_SHADER vertexShader w0 Hv)
      as (s1 & Hs1 & _).
    fold w1 in Hs1.
    assert (Hne : fresh (gl w0) <> fresh (gl w1)).
    { intros Heq. pose proof (fresh_shader (gl w1)) as Hnone.
      rewrite <- Heq, Hs1 in Hnone. discriminate. }
    split; [|exact Hne]. subst w2. rewrite compiled_other by exact Hne. eauto. }
  assert (H2 : fst (glsl_compile GL_FRAGMENT_SHADER (c_str fragmentShader)) = true ->
               is_Some (shaders (gl w2) !! fresh (gl w1))).
  { intros Hf.
    destruct (compiled_stage glsl_compile GL_FRAGMENT_SHADER fragmentShader w1 Hf)
      as (s2 & Hs2 & _).
    fold w2 in Hs2. eauto. }
  (* the program after the two attachments, then after the remaining calls *)
  pose proof (attach_shader_exact (gl w2) (fresh (gl w))
                (if fst (glsl_compile GL_VERTEX_SHADER (c_str vertexShader))
                 then fresh (gl w0) else 0) _ Hp) as Ha.
  cbn [pr_attached pr_linked pr_validated] in Ha.
  pose proof (attach_shader_exact _ (fresh (gl w))
                (if fst (glsl_compile GL_FRAGMENT_SHADER (c_str fragmentShader))
                 then fresh (gl w1) else 0) _ Ha) as Hb.
  cbn [pr_attached pr_linked pr_validated] in Hb.
  rewrite attach_shader_shaders in Hb.
  eexists r, w', _, (fresh (gl w0)), (fresh (gl w1)), _.
  split; [reflexivity|]. split; [exact Hcalls|].
  unfold build_calls, compile_calls, link_calls.
  split; [right; apply in_or_app; left; cbn; tauto|].
  split; [right; apply in_or_app; right; apply in_or_app; left; cbn; tauto|].
  split; [right; apply in_or_app; right; apply in_or_app; right; cbn; tauto|].
  split; [right; apply in_or_app; right; apply in_or_app; right; cbn; tauto|].
  rewrite Hgl. unfold linked_context. rewrite !delete_shader_programs.
  unfold validate_program, link_program. rewrite Hb.
  cbn [programs set_programs]. rewrite lookup_alter_eq, lookup_insert_eq.
  cbn [fmap option_fmap option_map pr_attached]. split; [reflexivity|].
  cbn [pr_attached].
  destruct (fst (glsl_compile GL_VERTEX_SHADER (c_str vertexShader))) eqn:Hv;
    destruct (fst (glsl_compile GL_FRAGMENT_SHADER (c_str fragmentShader))) eqn:Hf.
  - destruct (H1 eq_refl) as [[s1 Hs1] Hne]. destruct (H2 eq_refl) as [s2 Hs2].
    rewrite Hs1, Hs2. cbn [app].
    rewrite bool_decide_eq_false_2; [reflexivity|].
    intros Hin. apply list_elem_of_singleton in Hin. congruence.
  - destruct (H1 eq_refl) as [[s1 Hs1] Hne]. now rewrite Hs1, Hz.
  - destruct (H2 eq_refl) as [s2 Hs2]. rewrite Hz, Hs2. cbn [app].
    rewrite bool_decide_eq_false_2; [reflexivity | apply not_elem_of_nil].
  - now rewrite Hz.
Qed.

Lemma CreateShader_attaches_compiled_stages_witness :
  exists r w' made id1 id2 p,
    CreateShader picky_compile two_stage_link "bad" "void main() {}" used_world
    = Ok (r, w') /\
    calls w' = ([] ++ made)%list /\
    In (CallCreateShader GL_VERTEX_SHADER id1) made /\
    In (CallCreateShader GL_FRAGMENT_SHADER id2) made /\
    In (CallAttachShader 6 0) made /\
    In (CallAttachShader 6 id2) made /\
    programs (gl w') !! 6 = Some p /\
    pr_attached p = ([] ++ [id2])%list.
Proof.
  exact (CreateShader_attaches_compiled_stages picky_compile two_stage_link
           "bad" "void main() {}" used_world eq_refl eq_refl eq_refl eq_refl).
Defined.

(** *** A build without program *)



End BuilderMore.


(** ** The shader statements of [main] *)

Module MainSpec.
Import Terms Str Stream Splitter StrFacts SplitterFacts SplitterSpec.
Import GL GLFacts Builder BuilderFacts Samples Files MoreSamples Main.

(** *** No shader file *)

(** X11. [main] does not notice a shader file that is missing or empty:
    the value it keeps is what [CreateShader] gives on two empty texts.
    When the driver compiles the empty text, or rejects it with a log,
    both empty texts are handed to [glShaderSource] and compiled, the
    program is linked, and [main] keeps the value [glCreateProgram]
    returned; when the driver rejects the empty text without a log,
    [main] has no defined outcome. *)
Theorem main_shader_without_file
    (glsl_compile : Z -> string -> bool * string)
    (glsl_link : list (Z * string) -> bool)
    (fs : string -> option string) (w : world) :
  fs "default.shader" = None \/ fs "default.shader" = Some EmptyString ->
  main_shader glsl_compile glsl_link fs w
  = bind (CreateShader glsl_compile glsl_link "" "")
         (fun r => ret (unsigned_of_int r)) w /\
  (reportable glsl_compile GL_VERTEX_SHADER "" = true ->
   reportable glsl_compile GL_FRAGMENT_SHADER "" = true ->
   exists w' id1 id2,
     main_shader glsl_compile glsl_link fs w
     = Ok (fst (create_program (gl w)), w') /\
     In (CallShaderSource id1 "") (calls w') /\
     In (CallCompileShader id1) (calls w') /\
     In (CallShaderSource id2 "") (calls w') /\
     In (CallCompileShader id2) (calls w') /\
     In (CallLinkProgram (fst (create_program (gl w)))) (calls w')) /\
  (reportable glsl_compile GL_VERTEX_SHADER "" = false \/
   reportable glsl_compile GL_FRAGMENT_SHADER "" = false ->
   main_shader glsl_compile glsl_link fs w = Undefined Uninitialised).
Proof.
  intros Hfs.
  assert (Hparse : ParseShader fs "default.shader"
                   = Ok {| VertexSource := ""; FragmentSource := "" |}).
  { unfold ParseShader, open. destruct Hfs as [-> | ->].
    - now rewrite while_getline_step.
    - now rewrite while_getline_end. }
  assert (Hmain : main_shader glsl_compile glsl_link fs w
                  = bind (CreateShader glsl_compile glsl_link "" "")
                         (fun r => ret (unsigned_of_int r)) w).
  { unfold main_shader. unfold bind at 1, lift. now rewrite Hparse. }
  split; [exact Hmain|]. rewrite Hmain. unfold bind, ret. split.
  - intros Hv Hf. rewrite CreateShader_built by assumption.
    pose proof (built_calls glsl_compile glsl_link "" "" w) as Hcalls.
    pose proof (built_value glsl_compile glsl_link "" "" w) as Hval.
    destruct (built glsl_compile glsl_link "" "" w) as [r w'].
    cbn [fst snd] in *. subst r.
    rewrite int_of_unsigned_inv by apply create_program_range.
    exists w', (first_id w), (second_id glsl_compile "" w).
    split; [reflexivity|]. rewrite Hcalls.
    unfold build_calls, compile_calls, link_calls.
    repeat split; apply in_or_app; right; cbn [In app];
      repeat (rewrite in_app_iff; cbn [In]); tauto.
  - intros H. now rewrite CreateShader_unreported.
Qed.

Lemma main_shader_without_file_witness :
  main_shader lenient_compile two_stage_link (fun _ => None) fresh_world
  = main_shader lenient_compile two_stage_link (fun _ => Some EmptyString) fresh_world
  /\ (exists w',
         main_shader lenient_compile two_stage_link (fun _ => None) fresh_world
         = Ok (1, w'))
  /\ main_shader strict_compile two_stage_link (fun _ => Some EmptyString) fresh_world
     = Undefined Uninitialised.
Proof.
  destruct (main_shader_without_file lenient_compile two_stage_link
              (fun _ => None) fresh_world (or_introl eq_refl))
    as (Hmissing & Hruns & _).
  destruct (main_shader_without_file lenient_compile two_stage_link
              (fun _ => Some EmptyString) fresh_world (or_intror eq_refl))
    as (Hempty & _ & _).
  destruct (main_shader_without_file strict_compile two_stage_link
              (fun _ => Some EmptyString) fresh_world (or_intror eq_refl))
    as (_ & _ & Hnone).
  split; [rewrite Hmissing, Hempty; reflexivity|]. split.
  - destruct (Hruns eq_refl eq_refl) as (w' & id1 & id2 & Hrun & _).
    exists w'. exact Hrun.
  - apply Hnone. left. reflexivity.
Defined.

(** *** A file that builds *)

(** X12. From a shader file made of sections whose vertex text and
    fragment text the compiler accepts, and which the linker accepts
    together, [main] gets the handle of a fully valid program, and
    nothing is written to [std::cout]. *)
Theorem main_shader_valid
    (glsl_compile : Z -> string -> bool * string)
    (glsl_link : list (Z * string) -> bool)
    (fs : string -> option string) (txt : string) (secs : list section)
    (w : world) :
  fs "default.shader" = Some txt ->
  forallb well_formed secs = true ->
  file_of_lines (file_lines secs) txt ->
  fst (glsl_compile GL_VERTEX_SHADER (c_str (unlines (stage_lines true secs)))) = true ->
  fst (glsl_compile GL_FRAGMENT_SHADER (c_str (unlines (stage_lines false secs)))) = true ->
  glsl_link [(GL_VERTEX_SHADER, c_str (unlines (stage_lines true secs)));
             (GL_FRAGMENT_SHADER, c_str (unlines (stage_lines false secs)))] = true ->
  fresh (gl w) < 2^32 ->
  exists w',
    main_shader glsl_compile glsl_link fs w = Ok (fresh (gl w), w') /\
    fully_valid (gl w') (fresh (gl w)) = true /\
    cout w' = cout w.
Proof.
  intros Hfs Hwf Hfile Hv Hf Hlink Hsmall.
  assert (Hparse : ParseShader fs "default.shader"
                   = Ok {| VertexSource := unlines (stage_lines true secs);
                           FragmentSource := unlines (stage_lines false secs) |}).
  { rewrite (ParseShader_lines fs _ txt _ Hfs
               (SplitterMore.file_lines_are_lines secs Hwf) Hfile).
    rewrite <- (List.app_nil_r (file_lines secs)).
    now rewrite (SplitterMore.run_lines_sections secs [] NONE "" "" Hwf). }
  unfold main_shader. unfold bind at 1, lift. rewrite Hparse.
  cbv beta iota. cbn [VertexSource FragmentSource].
  unfold bind, ret. rewrite CreateShader_built by now apply reportable_compiles.
  pose proof (built_value glsl_compile glsl_link (unlines (stage_lines true secs))
                (unlines (stage_lines false secs)) w) as Hval.
  pose proof (built_cout glsl_compile glsl_link (unlines (stage_lines true secs))
                (unlines (stage_lines false secs)) w) as Hcout.
  pose proof (built_valid glsl_compile glsl_link (unlines (stage_lines true secs))
                (unlines (stage_lines false secs)) w Hsmall Hv Hf) as Hvalid.
  destruct (built glsl_compile glsl_link _ _ w) as [r w'].
  cbn [fst snd] in *. subst r. exists w'.
  rewrite program_created_handle by exact Hsmall.
  pose proof (fresh_pos (gl w)) as Hpos.
  split; [|split].
  - do 2 f_equal. apply int_of_unsigned_inv. lia.
  - now rewrite Hvalid.
  - rewrite Hcout, Hv, Hf. now rewrite !append_nil_r.
Qed.

Lemma main_shader_valid_witness :
  exists w',
    main_shader lenient_compile two_stage_link
                (one_file (unlines (file_lines split_sections))) fresh_world
    = Ok (1, w') /\
    fully_valid (gl w') 1 = true /\
    cout w' = EmptyString.
Proof.
  apply (main_shader_valid lenient_compile two_stage_link
           (one_file (unlines (file_lines split_sections)))
           (unlines (file_lines split_sections)) split_sections fresh_world).
  - reflexivity.
  - reflexivity.
  - left. reflexivity.
  - reflexivity.
  - reflexivity.
  - reflexivity.
  - reflexivity.
Defined.

End MainSpec.
